(** * Independent Reserve connector: a shallow embedding and its properties

    The development follows the three leaf components of the connector
    (independentreserve_auth.py, independentreserve_order_book.py and
    independentreserve_api_order_book_data_source.py).  Python values are
    embedded as follows.

    - A Python [str] is a Rocq [string] read as a sequence of code points
      below 256; [encode("utf8")] is written out for that range.
    - A Python [dict] (insertion ordered) is an association list whose keys
      are pairwise different; [d[k] = v] overwrites in place or appends.
    - A Python [int] is a [Z]; a Python [float] used as a price or a time is
      a rational [Q] (rounding of binary floating point is not modelled).
    - A call that may raise returns a [result]. *)

From Stdlib Require Import String Ascii List ZArith QArith Bool Lia.
From Stdlib Require Import Numbers.DecimalString.
Import ListNotations.
Local Open Scope string_scope.
Local Open Scope Z_scope.

(** ** Exceptions and results *)

Inductive PyExc : Type :=
| KeyError
| IndexError
| ValueError
| TypeError
| UnboundLocalError
| AttributeError
| IOError
| ValueDuplicationError
| CancelledError.

Inductive result (A : Type) : Type :=
| Ok (a : A)
| Raise (e : PyExc).

Arguments Ok {A} a.
Arguments Raise {A} e.

Definition bind {A B : Type} (r : result A) (k : A -> result B) : result B :=
  match r with
  | Ok a => k a
  | Raise e => Raise e
  end.

Notation "x <- c ;; k" := (bind c (fun x => k))
  (at level 61, c at next level, right associativity).

Definition of_option {A : Type} (e : PyExc) (o : option A) : result A :=
  match o with
  | Some a => Ok a
  | None => Raise e
  end.

(** ** Python strings *)

Module PyStr.

Definition quote_char : ascii := "034"%char.
Definition backslash_char : ascii := "092"%char.

(** [str(n)] for an integer. *)
Definition str_of_int (n : Z) : string :=
  NilEmpty.string_of_int (Z.to_int n).

(** [sep.join(parts)]. *)
Fixpoint join (sep : string) (parts : list string) : string :=
  match parts with
  | [] => EmptyString
  | [p] => p
  | p :: rest => p ++ sep ++ join sep rest
  end.

(** [s.upper()] on ASCII letters; it is only applied to hexadecimal digests. *)
Definition upper_char (c : ascii) : ascii :=
  let n := nat_of_ascii c in
  if andb (Nat.leb 97 n) (Nat.leb n 122) then ascii_of_nat (n - 32) else c.

Fixpoint upper (s : string) : string :=
  match s with
  | EmptyString => EmptyString
  | String c s' => String (upper_char c) (upper s')
  end.

(** [s.lower()] on ASCII letters. *)
Definition lower_char (c : ascii) : ascii :=
  let n := nat_of_ascii c in
  if andb (Nat.leb 65 n) (Nat.leb n 90) then ascii_of_nat (n + 32) else c.

Fixpoint lower (s : string) : string :=
  match s with
  | EmptyString => EmptyString
  | String c s' => String (lower_char c) (lower s')
  end.

(** [s.capitalize()]: first character upper-cased, the rest lower-cased. *)
Definition capitalize (s : string) : string :=
  match s with
  | EmptyString => EmptyString
  | String c s' => String (upper_char c) (lower s')
  end.

Definition hex_digit (n : nat) : ascii :=
  if Nat.ltb n 10 then ascii_of_nat (48 + n) else ascii_of_nat (87 + n).

(** Two lower-case hexadecimal digits of one byte. *)
Definition hex_byte (c : ascii) : string :=
  let n := nat_of_ascii c in
  String (hex_digit (Nat.div n 16)) (String (hex_digit (Nat.modulo n 16)) EmptyString).

(** [bytes.hex()]: lower-case hexadecimal rendering. *)
Fixpoint hex (bytes : string) : string :=
  match bytes with
  | EmptyString => EmptyString
  | String c s' => hex_byte c ++ hex s'
  end.

(** [s.encode("utf8")] for code points below 256. *)
Fixpoint encode_utf8 (s : string) : string :=
  match s with
  | EmptyString => EmptyString
  | String c s' =>
      let n := nat_of_ascii c in
      if Nat.ltb n 128 then String c (encode_utf8 s')
      else String (ascii_of_nat (192 + Nat.div n 64))
             (String (ascii_of_nat (128 + Nat.modulo n 64)) (encode_utf8 s'))
  end.

(** [s.split(sep)] for a one-character separator: the pieces between
    occurrences of [sep], at least one piece. *)
Fixpoint split_aux (sep : ascii) (s : string) (cur : string) : list string :=
  match s with
  | EmptyString => [cur]
  | String c s' =>
      if Ascii.eqb c sep then cur :: split_aux sep s' EmptyString
      else split_aux sep s' (cur ++ String c EmptyString)
  end.

Definition split (sep : ascii) (s : string) : list string :=
  split_aux sep s EmptyString.

(** [s[:-1]]: all but the last character (empty stays empty). *)
Fixpoint drop_last (s : string) : string :=
  match s with
  | EmptyString => EmptyString
  | String c EmptyString => EmptyString
  | String c s' => String c (drop_last s')
  end.

(** [needle in s] for strings. *)
Fixpoint contains (needle s : string) : bool :=
  if prefix needle s then true
  else match s with
       | EmptyString => false
       | String _ s' => contains needle s'
       end.

(** [l[i]] for a list index [i >= 0]. *)
Definition index {A : Type} (l : list A) (i : nat) : result A :=
  of_option IndexError (nth_error l i).

End PyStr.

(** ** Insertion-ordered dictionaries *)

Module Dict.

Section WithValue.
Context {V : Type}.

Definition t : Type := list (string * V).

(** [d.get(k)] as an option; [d[k]] raises [KeyError] on [None]. *)
Fixpoint get (k : string) (d : t) : option V :=
  match d with
  | [] => None
  | (k', v) :: rest => if String.eqb k k' then Some v else get k rest
  end.

Definition getitem (k : string) (d : t) : result V :=
  of_option KeyError (get k d).

(** [k in d]. *)
Definition mem (k : string) (d : t) : bool :=
  match get k d with
  | Some _ => true
  | None => false
  end.

(** [d[k] = v]: an existing key keeps its position, a new key goes last. *)
Fixpoint set (k : string) (v : V) (d : t) : t :=
  match d with
  | [] => [(k, v)]
  | (k', v') :: rest =>
      if String.eqb k k' then (k', v) :: rest else (k', v') :: set k v rest
  end.

(** [d.update(other)]. *)
Definition update (d other : t) : t :=
  fold_left (fun acc kv => set (fst kv) (snd kv) acc) other d.

Definition keys (d : t) : list string := map fst d.

(** The representation invariant of a Python dict. *)
Definition wf (d : t) : Prop := NoDup (keys d).

End WithValue.

Arguments t V : clear implicits.

End Dict.

(** ** [json.dumps] of strings and of flat objects *)

Module Json.

Definition bs (rest : string) : string := String PyStr.backslash_char rest.

(** One character of a JSON string with [ensure_ascii=True]: printable ASCII
    is kept, the quote and the backslash are escaped, the rest is written
    with a short escape or as a four-digit unicode escape. *)
Definition escape_char (c : ascii) : string :=
  let n := nat_of_ascii c in
  if Nat.eqb n 34 then bs (String PyStr.quote_char EmptyString)
  else if Nat.eqb n 92 then bs (bs EmptyString)
  else if Nat.eqb n 8 then bs "b"
  else if Nat.eqb n 12 then bs "f"
  else if Nat.eqb n 10 then bs "n"
  else if Nat.eqb n 13 then bs "r"
  else if Nat.eqb n 9 then bs "t"
  else if andb (Nat.leb 32 n) (Nat.leb n 126) then String c EmptyString
  else bs ("u00" ++ PyStr.hex_byte c).

Fixpoint escape (s : string) : string :=
  match s with
  | EmptyString => EmptyString
  | String c s' => escape_char c ++ escape s'
  end.

Definition encode_string (s : string) : string :=
  String PyStr.quote_char (escape s ++ String PyStr.quote_char EmptyString).

(** One [key: value] member, the value already encoded. *)
Definition member (k : string) (encoded : string) : string :=
  encode_string k ++ ": " ++ encoded.

(** [json.dumps(d, sort_keys=False)] of a dict whose values are encoded by
    [enc]: members in the dict's own order, separated by a comma and a space. *)
Definition dumps_object {V : Type} (enc : V -> string) (d : Dict.t V) : string :=
  "{" ++ PyStr.join ", " (map (fun kv => member (fst kv) (enc (snd kv))) d) ++ "}".

End Json.

(** ** independentreserve_auth.py *)

Module Auth.

Inductive RESTMethod : Type := GET | POST | PUT | DELETE.

(** [int(x)] of a float: truncation toward zero. *)
Definition int_of_Q (q : Q) : Z := Z.quot (Qnum q) (Z.pos (Qden q)).

Record IndependentreserveAuth : Type := {
  api_key : string;
  secret_key : string;
  (** what [time_provider.time()] returns at the call, in seconds *)
  time_provider : Q
}.

Section WithPrimitives.

(** [hmac.new(key, msg, hashlib.sha256).digest()], on byte strings. *)
Variable hmac_sha256 : string -> string -> string.

(** The values a request parameter may hold, how an f-string renders one
    and how [json.dumps] encodes one. *)
Variable Val : Type.
Variable format_val : Val -> string.
Variable dumps_val : Val -> string.

Record RESTRequest : Type := {
  method : RESTMethod;
  url : string;
  params : option (Dict.t Val);
  data : option string;
  headers : option (Dict.t string)
}.

(** A value of the signed body: one of the three strings the authenticator
    writes, or a request parameter carried over. *)
Inductive BodyVal : Type :=
| BStr (s : string)
| BParam (v : Val).

Definition dumps_body_val (b : BodyVal) : string :=
  match b with
  | BStr s => Json.encode_string s
  | BParam v => dumps_val v
  end.

(** [if params:] holds for a dict with at least one key. *)
Definition truthy (p : option (Dict.t Val)) : bool :=
  match p with
  | Some (_ :: _) => true
  | _ => false
  end.

Definition param_items (p : option (Dict.t Val)) : Dict.t Val :=
  match p with
  | Some ps => ps
  | None => []
  end.

Definition _generate_signature (auth : IndependentreserveAuth) (message : string) : string :=
  PyStr.upper
    (PyStr.hex (hmac_sha256 (PyStr.encode_utf8 (secret_key auth)) (PyStr.encode_utf8 message))).

Definition timestamp_of (auth : IndependentreserveAuth) : Z :=
  int_of_Q (time_provider auth * 1000).

(** The loop [for key in params: request_params.append(f"{key}={params[key]}")]. *)
Fixpoint append_params (ps : Dict.t Val) (ks : list string) (request_params : list string)
  : result (list string) :=
  match ks with
  | [] => Ok request_params
  | key :: ks' =>
      v <- Dict.getitem key ps ;;
      append_params ps ks' (request_params ++ [key ++ "=" ++ format_val v])
  end.

(** The loop [for key in params: data[key] = params[key]]. *)
Fixpoint copy_params (ps : Dict.t Val) (ks : list string) (d : Dict.t BodyVal)
  : result (Dict.t BodyVal) :=
  match ks with
  | [] => Ok d
  | key :: ks' =>
      v <- Dict.getitem key ps ;;
      copy_params ps ks' (Dict.set key (BParam v) d)
  end.

(** The message string [add_auth_to_data] hands to [_generate_signature]. *)
Definition signed_message (auth : IndependentreserveAuth) (u : string)
  (p : option (Dict.t Val)) : result string :=
  let timestamp := timestamp_of auth in
  let request_params :=
    [u; "apiKey=" ++ api_key auth; "nonce=" ++ PyStr.str_of_int timestamp] in
  request_params <-
    (if truthy p then append_params (param_items p) (Dict.keys (param_items p)) request_params
     else Ok request_params) ;;
  Ok (PyStr.join "," request_params).

(** The ordered dict [data] that [add_auth_to_data] serialises. *)
Definition auth_data (auth : IndependentreserveAuth) (u : string)
  (p : option (Dict.t Val)) : result (Dict.t BodyVal) :=
  message <- signed_message auth u p ;;
  let signature := _generate_signature auth message in
  let d :=
    [("apiKey", BStr (api_key auth));
     ("nonce", BStr (PyStr.str_of_int (timestamp_of auth)));
     ("signature", BStr signature)] in
  if truthy p then copy_params (param_items p) (Dict.keys (param_items p)) d
  else Ok d.

Definition add_auth_to_data (auth : IndependentreserveAuth) (u : string)
  (p : option (Dict.t Val)) : result string :=
  d <- auth_data auth u p ;;
  Ok (Json.dumps_object dumps_body_val d).

Definition header_for_authentication : Dict.t string :=
  [("Content-Type", "application/json")].

(** Both branches of the method test make the same call. *)
Definition rest_authenticate (auth : IndependentreserveAuth) (request : RESTRequest)
  : result RESTRequest :=
  body <-
    (match method request with
     | POST => add_auth_to_data auth (url request) (params request)
     | _ => add_auth_to_data auth (url request) (params request)
     end) ;;
  let hs := [] in
  let hs := match headers request with
            | Some h => Dict.update hs h
            | None => hs
            end in
  let hs := Dict.update hs header_for_authentication in
  Ok {| method := method request;
        url := url request;
        params := params request;
        data := Some body;
        headers := Some hs |}.

End WithPrimitives.

Arguments method {Val} r.
Arguments url {Val} r.
Arguments params {Val} r.
Arguments data {Val} r.
Arguments headers {Val} r.
Arguments BStr {Val} s.
Arguments BParam {Val} v.
Arguments param_items {Val} p.
Arguments truthy {Val} p.

End Auth.

(** ** Wire payloads *)

#[warnings="-register-all"]
Inductive json : Type :=
| JNull
| JBool (b : bool)
| JNum (q : Q)
| JStr (s : string)
| JArr (l : list json)
| JObj (d : list (string * json)).

Module Py.

(** [v[k]] with a string key: a dict is looked up, anything else cannot be
    indexed by a string. *)
Definition subscript (v : json) (k : string) : result json :=
  match v with
  | JObj d => Dict.getitem k d
  | _ => Raise TypeError
  end.

(** [v == s] for a string literal [s]. *)
Definition eq_str (v : json) (s : string) : bool :=
  match v with
  | JStr s' => String.eqb s' s
  | _ => false
  end.

(** [s in v] for a string literal [s]: substring of a str, element of a
    list, key of a dict. *)
Definition str_in (s : string) (v : json) : result bool :=
  match v with
  | JStr s' => Ok (PyStr.contains s s')
  | JArr l => Ok (existsb (fun x => eq_str x s) l)
  | JObj d => Ok (Dict.mem s d)
  | _ => Raise TypeError
  end.

(** The elements a [for] loop visits. *)
Definition iterate (v : json) : result (list json) :=
  match v with
  | JArr l => Ok l
  | JObj d => Ok (map (fun kv => JStr (fst kv)) d)
  | JStr s => Ok (map (fun c => JStr (String c EmptyString)) (list_ascii_of_string s))
  | _ => Raise TypeError
  end.

(** [v.split(sep)]: only a str has the method. *)
Definition split (sep : ascii) (v : json) : result (list string) :=
  match v with
  | JStr s => Ok (PyStr.split sep s)
  | _ => Raise AttributeError
  end.

(** [v.items()]: only a dict has the method. *)
Definition items (v : json) : result (list (string * json)) :=
  match v with
  | JObj d => Ok d
  | _ => Raise AttributeError
  end.

(** [if d:] for an optional dict. *)
Definition truthy (d : option (Dict.t json)) : bool :=
  match d with
  | Some (_ :: _) => true
  | _ => false
  end.

(** [metadata[k]] for an optional dict: [None] cannot be indexed. *)
Definition opt_getitem (d : option (Dict.t json)) (k : string) : result json :=
  match d with
  | Some m => Dict.getitem k m
  | None => Raise TypeError
  end.

(** [msg.update(metadata)] guarded by [if metadata:]. *)
Definition update_if (msg : Dict.t json) (metadata : option (Dict.t json)) : Dict.t json :=
  match metadata with
  | Some (x :: m) => Dict.update msg (x :: m)
  | _ => msg
  end.

Definition is_space (c : ascii) : bool :=
  let n := nat_of_ascii c in
  orb (andb (Nat.leb 9 n) (Nat.leb n 13))
    (orb (andb (Nat.leb 28 n) (Nat.leb n 32)) (orb (Nat.eqb n 133) (Nat.eqb n 160))).

Fixpoint lstrip (s : string) : string :=
  match s with
  | String c s' => if is_space c then lstrip s' else s
  | EmptyString => EmptyString
  end.

Fixpoint rstrip (s : string) : string :=
  match s with
  | EmptyString => EmptyString
  | String c s' =>
      match rstrip s' with
      | EmptyString => if is_space c then EmptyString else String c EmptyString
      | r => String c r
      end
  end.

Definition digit_of (c : ascii) : option Z :=
  let n := nat_of_ascii c in
  if andb (Nat.leb 48 n) (Nat.leb n 57) then Some (Z.of_nat (n - 48)) else None.

(** Decimal digits, single underscores allowed between two digits.
    [after_digit] tells whether the previous character was a digit. *)
Fixpoint digits (s : string) (acc : Z) (after_digit : bool) : option Z :=
  match s with
  | EmptyString => if after_digit then Some acc else None
  | String c s' =>
      match digit_of c with
      | Some d => digits s' (10 * acc + d) true
      | None =>
          if andb (Ascii.eqb c "_"%char) after_digit then
            match s' with
            | String c' _ =>
                match digit_of c' with
                | Some _ => digits s' acc false
                | None => None
                end
            | EmptyString => None
            end
          else None
      end
  end.

(** [int(s)] for a str: surrounding white space, an optional sign, digits. *)
Definition int_of_str (s : string) : result Z :=
  let body := rstrip (lstrip s) in
  of_option ValueError
    (match body with
     | String "-"%char r => option_map Z.opp (digits r 0 false)
     | String "+"%char r => digits r 0 false
     | _ => digits body 0 false
     end).

(** Rounding of [n / d] to the nearest integer, ties to the even one: what
    [timedelta(microseconds = n / d)] keeps of a fractional microsecond. *)
Definition round_half_even_div (n d : Z) : Z :=
  let q := n / d in
  let r := n mod d in
  if 2 * r <? d then q
  else if d <? 2 * r then q + 1
  else if Z.even q then q else q + 1.

End Py.

(** ** independentreserve_order_book.py *)

Module OrderBook.

Inductive OrderBookMessageType : Type := SNAPSHOT | DIFF | TRADE.

(** [OrderBookMessage(type, content, timestamp=...)]. *)
Record OrderBookMessage : Type := {
  msg_type : OrderBookMessageType;
  content : Dict.t json;
  timestamp : option Q
}.

Section WithLibrary.

(** [datetime.strptime(s, '%Y-%m-%dT%H:%M:%S')] as microseconds on the
    time line, [None] where it raises [ValueError]. *)
Variable strptime : string -> option Z.

(** [str(v)] for a value that is not a str. *)
Variable str_nonstring : json -> string.

(** [float(TradeType.SELL.value)] and [float(TradeType.BUY.value)]. *)
Variable trade_type_sell : Q.
Variable trade_type_buy : Q.

Definition py_str (v : json) : string :=
  match v with
  | JStr s => s
  | _ => str_nonstring v
  end.

(** The two statements that clean up [CreatedTimestampUtc]:
    [t = strptime(created.split(".")[0], ...)] and
    [t = t + timedelta(microseconds=int(created.split(".")[1][:-1]) / 1000)]. *)
Definition parse_created_timestamp (msg : Dict.t json) : result Z :=
  created <- Dict.getitem "CreatedTimestampUtc" msg ;;
  parts <- Py.split "."%char created ;;
  head <- PyStr.index parts 0 ;;
  t <- of_option ValueError (strptime head) ;;
  created <- Dict.getitem "CreatedTimestampUtc" msg ;;
  parts <- Py.split "."%char created ;;
  frac <- PyStr.index parts 1 ;;
  n <- Py.int_of_str (PyStr.drop_last frac) ;;
  Ok (t + Py.round_half_even_div n 1000).

(** [[order["Price"], order["Volume"]]] for every order, in order. *)
Fixpoint price_volume_pairs (orders : list json) : result (list json) :=
  match orders with
  | [] => Ok []
  | o :: rest =>
      p <- Py.subscript o "Price" ;;
      v <- Py.subscript o "Volume" ;;
      r <- price_volume_pairs rest ;;
      Ok (JArr [p; v] :: r)
  end.

Definition snapshot_message_from_exchange (msg : Dict.t json) (ts : Q)
  (metadata : option (Dict.t json)) : result OrderBookMessage :=
  _ <- parse_created_timestamp msg ;;
  buy_orders <- Dict.getitem "BuyOrders" msg ;;
  buys <- Py.iterate buy_orders ;;
  bids <- price_volume_pairs buys ;;
  sell_orders <- Dict.getitem "SellOrders" msg ;;
  sells <- Py.iterate sell_orders ;;
  asks <- price_volume_pairs sells ;;
  trading_pair <- Py.opt_getitem metadata "trading_pair" ;;
  Ok {| msg_type := SNAPSHOT;
        content := [("trading_pair", trading_pair);
                    ("update_id", JNum (inject_Z 0));
                    ("bids", JArr bids);
                    ("asks", JArr asks)];
        timestamp := Some ts |}.

(** [msg["Data"][k]]. *)
Definition data_field (msg : Dict.t json) (k : string) : result json :=
  d <- Dict.getitem "Data" msg ;;
  Py.subscript d k.

Definition zero_level : json := JArr [JArr [JNum (inject_Z 0); JNum (inject_Z 0)]].

(** The dict built in both [NewOrder] branches; [bid] tells the side. *)
Definition new_order_update (msg : Dict.t json) (metadata : option (Dict.t json))
  (fiat : string) (bid : bool) : result (Dict.t json) :=
  prices <- data_field msg "Price" ;;
  price <- Py.subscript prices fiat ;;
  trading_pair <- Py.opt_getitem metadata "trading_pair" ;;
  order_type <- data_field msg "OrderType" ;;
  order_guid <- data_field msg "OrderGuid" ;;
  nonce <- Dict.getitem "Nonce" msg ;;
  volume <- data_field msg "Volume" ;;
  let level := JArr [JArr [JStr (py_str price); JStr (py_str volume)]] in
  event <- Dict.getitem "Event" msg ;;
  Ok [("trading_pair", JStr (py_str trading_pair));
      ("order_type", order_type);
      ("order_guid", order_guid);
      ("update_id", nonce);
      ("bids", if bid then level else zero_level);
      ("asks", if bid then zero_level else level);
      ("event", event)].

(** The dict built for [OrderCanceled]. *)
Definition canceled_update (msg : Dict.t json) (metadata : option (Dict.t json))
  : result (Dict.t json) :=
  trading_pair <- Py.opt_getitem metadata "trading_pair" ;;
  order_type <- data_field msg "OrderType" ;;
  order_guid <- data_field msg "OrderGuid" ;;
  nonce <- Dict.getitem "Nonce" msg ;;
  event <- Dict.getitem "Event" msg ;;
  Ok [("trading_pair", JStr (py_str trading_pair));
      ("order_type", order_type);
      ("order_guid", order_guid);
      ("update_id", nonce);
      ("event", event)].

(** The dict built in both [OrderChanged] branches: the new volume is
    stored under the key [price]. *)
Definition changed_update (msg : Dict.t json) (metadata : option (Dict.t json))
  : result (Dict.t json) :=
  trading_pair <- Py.opt_getitem metadata "trading_pair" ;;
  order_type <- data_field msg "OrderType" ;;
  order_guid <- data_field msg "OrderGuid" ;;
  nonce <- Dict.getitem "Nonce" msg ;;
  volume <- data_field msg "Volume" ;;
  event <- Dict.getitem "Event" msg ;;
  Ok [("trading_pair", JStr (py_str trading_pair));
      ("order_type", order_type);
      ("order_guid", order_guid);
      ("update_id", nonce);
      ("price", volume);
      ("event", event)].

(** [msg["Event"] == "NewOrder" and needle in msg["Data"]["OrderType"]]. *)
Definition new_order_of (msg : Dict.t json) (needle : string) : result bool :=
  event <- Dict.getitem "Event" msg ;;
  if Py.eq_str event "NewOrder" then
    order_type <- data_field msg "OrderType" ;;
    Py.str_in needle order_type
  else Ok false.

Definition event_is (msg : Dict.t json) (name : string) : result bool :=
  event <- Dict.getitem "Event" msg ;;
  Ok (Py.eq_str event name).

(** [msg["Data"]["OrderType"] in (a, b)]. *)
Definition order_type_among (msg : Dict.t json) (a b : string) : result bool :=
  order_type <- data_field msg "OrderType" ;;
  Ok (orb (Py.eq_str order_type a) (Py.eq_str order_type b)).

(** The websocket branch: the local [update] starts unbound ([None] here)
    and each of the four [if] statements may bind it. *)
Definition ws_update (msg : Dict.t json) (metadata : option (Dict.t json))
  : result (option (Dict.t json)) :=
  trading_pair <- Py.opt_getitem metadata "trading_pair" ;;
  codes <- Py.split "-"%char trading_pair ;;
  code <- PyStr.index codes 1 ;;
  let fiat := PyStr.lower code in
  let update := None in
  c1 <- new_order_of msg "LimitBid" ;;
  update <- (if c1 then u <- new_order_update msg metadata fiat true ;; Ok (Some u)
             else Ok update) ;;
  c2 <- new_order_of msg "LimitOffer" ;;
  update <- (if c2 then u <- new_order_update msg metadata fiat false ;; Ok (Some u)
             else Ok update) ;;
  c3 <- event_is msg "OrderCanceled" ;;
  update <- (if c3 then u <- canceled_update msg metadata ;; Ok (Some u)
             else Ok update) ;;
  c4 <- event_is msg "OrderChanged" ;;
  if c4 then
    b1 <- order_type_among msg "MarketBid" "LimitBid" ;;
    update <- (if b1 then u <- changed_update msg metadata ;; Ok (Some u)
               else Ok update) ;;
    b2 <- order_type_among msg "MarketOffer" "LimitOffer" ;;
    (if b2 then u <- changed_update msg metadata ;; Ok (Some u)
     else Ok update)
  else Ok update.

Definition diff_message_from_exchange (msg : Dict.t json) (ts : option Q)
  (metadata : option (Dict.t json)) : result OrderBookMessage :=
  let msg := Py.update_if msg metadata in
  if negb (Dict.mem "Channel" msg) then
    _ <- parse_created_timestamp msg ;;
    trading_pair <- Py.opt_getitem metadata "trading_pair" ;;
    nonce <- Dict.getitem "Nonce" msg ;;
    buy_orders <- Dict.getitem "BuyOrders" msg ;;
    sell_orders <- Dict.getitem "SellOrders" msg ;;
    Ok {| msg_type := DIFF;
          content := [("trading_pair", JStr (py_str trading_pair));
                      ("update_id", nonce);
                      ("bids", buy_orders);
                      ("asks", sell_orders)];
          timestamp := ts |}
  else
    update <- ws_update msg metadata ;;
    update <- of_option UnboundLocalError update ;;
    Ok {| msg_type := DIFF; content := update; timestamp := ts |}.

(** The loop [for key, value in prices.items(): if code == key: price = value]:
    the local [price] is bound by the last entry whose key equals [code]. *)
Fixpoint select_price (code : string) (prices : list (string * json)) (price : option json)
  : option json :=
  match prices with
  | [] => price
  | (key, value) :: rest =>
      select_price code rest (if String.eqb code key then Some value else price)
  end.

(** [ts * 1e-3]: a number is scaled, other values do not multiply a float. *)
Definition millis_to_seconds (v : json) : result Q :=
  match v with
  | JNum q => Ok (q * (1 # 1000))%Q
  | JBool b => Ok ((if b then 1 else 0) * (1 # 1000))%Q
  | _ => Raise TypeError
  end.

Definition trade_message_from_exchange (msg : Dict.t json)
  (metadata : option (Dict.t json)) : result OrderBookMessage :=
  let msg := Py.update_if msg metadata in
  ts <- Dict.getitem "Time" msg ;;
  trading_pair <- Dict.getitem "trading_pair" msg ;;
  currencies <- Py.split "-"%char trading_pair ;;
  prices <- data_field msg "Price" ;;
  entries <- Py.items prices ;;
  price <-
    (match entries with
     | [] => Ok None
     | _ :: _ =>
         code <- PyStr.index currencies 1 ;;
         Ok (select_price code entries None)
     end) ;;
  trading_pair <- Dict.getitem "trading_pair" msg ;;
  side <- data_field msg "Side" ;;
  let trade_type := if Py.eq_str side "Sell" then trade_type_sell else trade_type_buy in
  trade_id <- data_field msg "TradeGuid" ;;
  nonce <- Dict.getitem "Nonce" msg ;;
  price <- of_option UnboundLocalError price ;;
  amount <- data_field msg "Volume" ;;
  seconds <- millis_to_seconds ts ;;
  Ok {| msg_type := TRADE;
        content := [("trading_pair", trading_pair);
                    ("trade_type", JNum trade_type);
                    ("trade_id", trade_id);
                    ("update_id", nonce);
                    ("price", price);
                    ("amount", amount)];
        timestamp := Some seconds |}.

End WithLibrary.

End OrderBook.

(** ** The [bidict] holding one domain's symbols *)

Module Bidict.

(** Keys are the tuples [(primary, secondary)], values the client pairs. *)
Definition symbol : Type := (string * string)%type.

Definition t : Type := list (symbol * string).

Definition symbol_eqb (a b : symbol) : bool :=
  andb (String.eqb (fst a) (fst b)) (String.eqb (snd a) (snd b)).

(** [m.get(key)]. *)
Fixpoint get (key : symbol) (m : t) : option string :=
  match m with
  | [] => None
  | (k, v) :: rest => if symbol_eqb key k then Some v else get key rest
  end.

(** [m.inverse.get(val)]. *)
Fixpoint get_inverse (val : string) (m : t) : option symbol :=
  match m with
  | [] => None
  | (k, v) :: rest => if String.eqb val v then Some k else get_inverse val rest
  end.

Fixpoint replace (key : symbol) (val : string) (m : t) : t :=
  match m with
  | [] => []
  | (k, v) :: rest =>
      if symbol_eqb key k then (k, val) :: rest else (k, v) :: replace key val rest
  end.

(** [m[key] = val] under the default duplication policy: the same item again
    is a no-op, a known key takes the new value, and a value already held by
    another key raises. *)
Definition put (key : symbol) (val : string) (m : t) : result t :=
  match get key m, get_inverse val m with
  | Some v, Some k =>
      if andb (String.eqb v val) (symbol_eqb k key) then Ok m
      else Raise ValueDuplicationError
  | Some _, None => Ok (replace key val m)
  | None, Some _ => Raise ValueDuplicationError
  | None, None => Ok (m ++ [(key, val)])%list
  end.

(** [m[key]] and [m.inverse[val]]. *)
Definition getitem (key : symbol) (m : t) : result string :=
  of_option KeyError (get key m).

Definition inverse_getitem (val : string) (m : t) : result symbol :=
  of_option KeyError (get_inverse val m).

(** The invariant of a bidict: no key twice, no value twice. *)
Definition wf (m : t) : Prop :=
  NoDup (map fst m) /\ NoDup (map snd m).

End Bidict.

(** ** independentreserve_constants.py and independentreserve_utils.py *)

Module Constants.

(** A path with no placeholder, or one with two [{}] placeholders. *)
Inductive path_url : Type :=
| Plain (s : string)
| Template2 (before between after : string).

Definition raw (p : path_url) : string :=
  match p with
  | Plain s => s
  | Template2 a b c => a ++ "{}" ++ b ++ "{}" ++ c
  end.

(** [path.format(x, y)]. *)
Definition format2 (p : path_url) (x y : string) : string :=
  match p with
  | Plain s => s
  | Template2 a b c => a ++ x ++ b ++ y ++ c
  end.

(** [REST_URL.format(domain)]. *)
Definition REST_URL (domain : string) : string :=
  "https://api.independentreserve." ++ domain.

Definition PUBLIC_API_VERSION : string := "/Public".

Definition PRIMARY_CURRENCY_CODES_PATH_URL : path_url :=
  Plain "/GetValidPrimaryCurrencyCodes".

Definition SECONDARY_CURRENCY_CODES_PATH_URL : path_url :=
  Plain "/GetValidSecondaryCurrencyCodes".

Definition TICKER_PRICE_CHANGE_PATH_URL : path_url :=
  Template2 "/GetRecentTrades?primaryCurrencyCode=" "&secondaryCurrencyCode="
    "&numberOfRecentTradesToRetrieve=50".

Definition ORDER_BOOK_PATH_URL : path_url :=
  Template2 "/GetOrderBook?primaryCurrencyCode=" "&secondaryCurrencyCode=" EmptyString.

Definition DIFF_EVENT_TYPE : string := "OrderBook".
Definition TRADE_EVENT_TYPE : string := "Trade".

End Constants.

Module Utils.

(** [public_rest_url(path_url, symbols, domain)]. *)
Definition public_rest_url (p : Constants.path_url) (symbols : option (list string))
  (domain : string) : result string :=
  match symbols with
  | None | Some [] =>
      Ok (Constants.REST_URL domain ++ Constants.PUBLIC_API_VERSION ++ Constants.raw p)
  | Some l =>
      s0 <- PyStr.index l 0 ;;
      s1 <- PyStr.index l 1 ;;
      Ok (Constants.REST_URL domain ++ Constants.PUBLIC_API_VERSION
            ++ Constants.format2 p s0 s1)
  end.

End Utils.

(** ** independentreserve_api_order_book_data_source.py *)

Module DataSource.

(** What one REST exchange yields: the call (or the decoding of its body)
    raises, or a response arrives with a status and a decoded body. *)
Inductive rest_outcome (Body : Type) : Type :=
| CallRaises (e : PyExc)
| Response (status : Z) (body : Body).

Arguments CallRaises {Body} e.
Arguments Response {Body} status body.

(** The class attribute [_trading_pair_symbol_map]: one bidict per domain. *)
Definition symbol_maps : Type := Dict.t Bidict.t.

Definition trading_pair_symbol_map_ready (st : symbol_maps) (domain : string) : bool :=
  match Dict.get domain st with
  | Some m => Nat.ltb 0 (length m)
  | None => false
  end.

(** One guarded fetch of [_init_trading_pair_symbols]: the data is bound on
    status 200, left unbound on another status or on a logged exception;
    only a cancellation leaves the [try]. *)
Definition fetch_codes (call : string -> rest_outcome (list string)) (u : string)
  : result (option (list string)) :=
  match call u with
  | CallRaises CancelledError => Raise CancelledError
  | CallRaises _ => Ok None
  | Response status body => if status =? 200 then Ok (Some body) else Ok None
  end.

(** The loop [for pair in all_currency_codes: mapping[pair] = f"{pair[0]}-{pair[1]}"]. *)
Fixpoint fill_mapping (pairs : list Bidict.symbol) (mapping : Bidict.t) : result Bidict.t :=
  match pairs with
  | [] => Ok mapping
  | code_pair :: rest =>
      m <- Bidict.put code_pair (fst code_pair ++ "-" ++ snd code_pair) mapping ;;
      fill_mapping rest m
  end.

(** Everything [_init_trading_pair_symbols] computes before its last line. *)
Definition build_mapping (call : string -> rest_outcome (list string)) (domain : string)
  : result Bidict.t :=
  let mapping := [] in
  primary_url <- Utils.public_rest_url Constants.PRIMARY_CURRENCY_CODES_PATH_URL None domain ;;
  secondary_url <- Utils.public_rest_url Constants.SECONDARY_CURRENCY_CODES_PATH_URL None domain ;;
  primary_data <- fetch_codes call primary_url ;;
  secondary_data <- fetch_codes call secondary_url ;;
  primary_data <- of_option UnboundLocalError primary_data ;;
  secondary_data <- of_option UnboundLocalError secondary_data ;;
  fill_mapping (list_prod primary_data secondary_data) mapping.

(** The last line, [cls._trading_pair_symbol_map[domain] = mapping], is the
    only write to the class state. *)
Definition _init_trading_pair_symbols (call : string -> rest_outcome (list string))
  (st : symbol_maps) (domain : string) : symbol_maps * result unit :=
  match build_mapping call domain with
  | Ok mapping => (Dict.set domain mapping st, Ok tt)
  | Raise e => (st, Raise e)
  end.

(** The second readiness test is the one made under the lock. *)
Definition trading_pair_symbol_map (call : string -> rest_outcome (list string))
  (st : symbol_maps) (domain : string) : symbol_maps * result Bidict.t :=
  let '(st', r) :=
    if negb (trading_pair_symbol_map_ready st domain) then
      if negb (trading_pair_symbol_map_ready st domain) then
        _init_trading_pair_symbols call st domain
      else (st, Ok tt)
    else (st, Ok tt) in
  (st', _ <- r ;; Dict.getitem domain st').

Definition exchange_symbol_associated_to_pair (call : string -> rest_outcome (list string))
  (st : symbol_maps) (trading_pair : string) (domain : string)
  : symbol_maps * result Bidict.symbol :=
  let '(st', r) := trading_pair_symbol_map call st domain in
  (st', symbol_map <- r ;; Bidict.inverse_getitem trading_pair symbol_map).

Definition trading_pair_associated_to_exchange_symbol
  (call : string -> rest_outcome (list string))
  (st : symbol_maps) (symbol : Bidict.symbol) (domain : string)
  : symbol_maps * result string :=
  let '(st', r) := trading_pair_symbol_map call st domain in
  (st', symbol_map <- r ;; Bidict.getitem symbol symbol_map).

(** [v[i]] with an integer index. *)
Definition subscript_int (v : json) (i : nat) : result json :=
  match v with
  | JArr l => PyStr.index l i
  | JStr s => c <- PyStr.index (list_ascii_of_string s) i ;; Ok (JStr (String c EmptyString))
  | JObj _ => Raise KeyError
  | _ => Raise TypeError
  end.

(** Several awaited results gathered in order; the first failure is raised. *)
Fixpoint gather {A : Type} (tasks : list (result A)) : result (list A) :=
  match tasks with
  | [] => Ok []
  | t :: rest =>
      a <- t ;;
      r <- gather rest ;;
      Ok (a :: r)
  end.

(** What a long-running loop has done so far. *)
Record trace : Type := {
  emitted : list OrderBook.OrderBookMessage;
  logged : list PyExc;
  cancelled : bool
}.

Definition idle : trace := {| emitted := []; logged := []; cancelled := false |}.

Definition emit (m : OrderBook.OrderBookMessage) : trace :=
  {| emitted := [m]; logged := []; cancelled := false |}.

Definition log (e : PyExc) : trace :=
  {| emitted := []; logged := [e]; cancelled := false |}.

Definition cancel : trace := {| emitted := []; logged := []; cancelled := true |}.

(** [a] followed by [b], unless [a] ended in a cancellation. *)
Definition then_ (a b : trace) : trace :=
  if cancelled a then a
  else {| emitted := emitted a ++ emitted b;
          logged := logged a ++ logged b;
          cancelled := cancelled b |}.

(** The [try] of a loop body: a message is put on the output queue, a
    cancellation is raised again, any other exception is logged. *)
Definition guarded (r : result OrderBook.OrderBookMessage) : trace :=
  match r with
  | Ok m => emit m
  | Raise CancelledError => cancel
  | Raise e => log e
  end.

Inductive queue : Type := DiffQueue | TradeQueue.

(** [event_type in names], where [event_type] is [data.get("Event")]. *)
Definition event_among (event_type : option json) (names : list string) : bool :=
  match event_type with
  | Some v => existsb (fun n => Py.eq_str v n) names
  | None => false
  end.

(** The body of [async for ws_response in ws.iter_messages()].  The first
    test is the chained comparison
    [event_type in ["Heartbeat", "Subscriptions"] in data]: when its first
    half holds, the list itself is looked up as a key of the dict [data],
    and a list is not hashable. *)
Definition route (data : Dict.t json) : result (option queue) :=
  let event_type := Dict.get "Event" data in
  if event_among event_type ["Heartbeat"; "Subscriptions"] then Raise TypeError
  else if event_among event_type ["NewOrder"; "OrderChanged"; "OrderCanceled"]
       then Ok (Some DiffQueue)
  else if event_among event_type [Constants.TRADE_EVENT_TYPE] then Ok (Some TradeQueue)
  else Ok None.

Section WithLibrary.

Variable strptime : string -> option Z.
Variable str_nonstring : json -> string.
Variable trade_type_sell : Q.
Variable trade_type_buy : Q.

(** [float(s)] for a str, [None] where it raises [ValueError]. *)
Variable float_of_str : string -> option Q.

(** [float(v)]. *)
Definition py_float (v : json) : result Q :=
  match v with
  | JNum q => Ok q
  | JBool b => Ok (if b then 1 else 0)%Q
  | JStr s => of_option ValueError (float_of_str s)
  | _ => Raise TypeError
  end.

Definition _get_last_traded_price (call : string -> rest_outcome json)
  (trading_pair : string) (domain : string) : result (option Q) :=
  let currencyCodes := PyStr.split "-"%char trading_pair in
  u <- Utils.public_rest_url Constants.TICKER_PRICE_CHANGE_PATH_URL (Some currencyCodes) domain ;;
  match call u with
  | CallRaises e => Raise e
  | Response status resp_json =>
      if status =? 200 then
        trades <- Py.subscript resp_json "Trades" ;;
        first <- subscript_int trades 0 ;;
        price <- Py.subscript first "SecondaryCurrencyTradePrice" ;;
        x <- py_float price ;;
        Ok (Some x)
      else Ok None
  end.

Definition get_last_traded_prices (call : string -> rest_outcome json)
  (trading_pairs : list string) (domain : string) : result (Dict.t (option Q)) :=
  let tasks := map (fun t_pair => _get_last_traded_price call t_pair domain) trading_pairs in
  results <- gather tasks ;;
  Ok (Dict.update [] (combine trading_pairs results)).

Definition get_snapshot (call : string -> rest_outcome json) (domain : string)
  (trading_pair : string) : result json :=
  let currencyCodes := PyStr.split "-"%char trading_pair in
  u <- Utils.public_rest_url Constants.ORDER_BOOK_PATH_URL (Some currencyCodes) domain ;;
  match call u with
  | CallRaises e => Raise e
  | Response status body => if negb (status =? 200) then Raise IOError else Ok body
  end.

(** The normaliser applied to a decoded body, which need not be a dict. *)
Definition snapshot_of (snapshot : json) (ts : Q) (metadata : option (Dict.t json))
  : result OrderBook.OrderBookMessage :=
  match snapshot with
  | JObj d => OrderBook.snapshot_message_from_exchange strptime d ts metadata
  | _ => Raise TypeError
  end.

(** One pass of [for trading_pair in self._trading_pairs] in
    [listen_for_order_book_snapshots]. *)
Fixpoint snapshot_cycle (call : string -> rest_outcome json) (clock : string -> Q)
  (domain : string) (trading_pairs : list string) : trace :=
  match trading_pairs with
  | [] => idle
  | trading_pair :: rest =>
      then_
        (guarded
           (snapshot <- get_snapshot call domain trading_pair ;;
            snapshot_of snapshot (clock trading_pair)
              (Some [("trading_pair", JStr trading_pair)])))
        (snapshot_cycle call clock domain rest)
  end.

(** The first [cycles] rounds of the [while True] loop; round [i] sees the
    exchange as [call i] and the clock as [clock i]. *)
Fixpoint listen_for_order_book_snapshots (call : nat -> string -> rest_outcome json)
  (clock : nat -> string -> Q) (domain : string) (trading_pairs : list string)
  (first cycles : nat) : trace :=
  match cycles with
  | O => idle
  | S n =>
      then_ (snapshot_cycle (call first) (clock first) domain trading_pairs)
        (listen_for_order_book_snapshots call clock domain trading_pairs (S first) n)
  end.

(** One round of [listen_for_order_book_diffs] on a queued event. *)
Definition listen_for_order_book_diffs_step (trading_pairs : list string) (now : Q)
  (json_msg : Dict.t json) : trace :=
  if Dict.mem "data" json_msg then idle
  else
    let trading_pair := PyStr.join EmptyString trading_pairs in
    guarded
      (OrderBook.diff_message_from_exchange strptime str_nonstring json_msg (Some now)
         (Some [("trading_pair", JStr trading_pair)])).

(** The loop [for key, value in prices.items(): message_secondarypair = key]. *)
Definition last_key (entries : list (string * json)) : option string :=
  fold_left (fun _ kv => Some (fst kv)) entries None.

(** One round of [listen_for_trades] on a queued event. *)
Definition listen_for_trades_step (json_msg : Dict.t json) : trace :=
  if Dict.mem "data" json_msg then idle
  else
    guarded
      (channel <- Dict.getitem "Channel" json_msg ;;
       primaryCurrency <- Py.split "-"%char channel ;;
       prices <- OrderBook.data_field json_msg "Price" ;;
       entries <- Py.items prices ;;
       primary <- PyStr.index primaryCurrency 1 ;;
       message_secondarypair <- of_option UnboundLocalError (last_key entries) ;;
       let trading_pair := PyStr.capitalize primary ++ "-" ++ message_secondarypair in
       OrderBook.trade_message_from_exchange trade_type_sell trade_type_buy json_msg
         (Some [("trading_pair", JStr trading_pair)])).

(** A websocket event from its arrival to the diff output queue: the router
    first, then the diff loop when the event was put on the diff queue.  An
    exception of the router is caught by the handler of
    [listen_for_subscriptions], which logs it and reconnects. *)
Definition diff_path (trading_pairs : list string) (now : Q) (data : Dict.t json) : trace :=
  match route data with
  | Raise e => log e
  | Ok (Some DiffQueue) => listen_for_order_book_diffs_step trading_pairs now data
  | Ok _ => idle
  end.

End WithLibrary.

End DataSource.

(** * Properties *)

(** ** Dictionaries *)

Module DictFacts.

Section WithValue.
Context {V : Type}.

Lemma get_of_item (d : Dict.t V) :
  Dict.wf d -> forall k v, In (k, v) d -> Dict.get k d = Some v.
Proof.
  unfold Dict.wf, Dict.keys.
  induction d as [|[k' v'] d IH]; simpl; intros Hnd k v Hin; [contradiction|].
  inversion Hnd as [|? ? Hnotin Hnd']; subst.
  destruct Hin as [Heq | Hin].
  - inversion Heq; subst. now rewrite String.eqb_refl.
  - destruct (String.eqb_spec k k') as [->|Hne].
    + exfalso. apply Hnotin. now apply (in_map fst) in Hin.
    + now apply IH.
Qed.

Lemma get_none (d : Dict.t V) (k : string) :
  ~ In k (Dict.keys d) -> Dict.get k d = None.
Proof.
  unfold Dict.keys.
  induction d as [|[k' v'] d IH]; simpl; intros Hnotin; [reflexivity|].
  destruct (String.eqb_spec k k') as [->|Hne].
  - exfalso. apply Hnotin. now left.
  - apply IH. intros Hin. apply Hnotin. now right.
Qed.

Lemma set_fresh (d : Dict.t V) (k : string) (v : V) :
  ~ In k (Dict.keys d) -> Dict.set k v d = (d ++ [(k, v)])%list.
Proof.
  unfold Dict.keys.
  induction d as [|[k' v'] d IH]; simpl; intros Hnotin; [reflexivity|].
  destruct (String.eqb_spec k k') as [->|Hne].
  - exfalso. apply Hnotin. now left.
  - f_equal. apply IH. intros Hin. apply Hnotin. now right.
Qed.

(** Updating with entries whose keys are new and pairwise different appends
    them in their order. *)
Lemma update_fresh (other d : Dict.t V) :
  Dict.wf other ->
  (forall k, In k (Dict.keys other) -> ~ In k (Dict.keys d)) ->
  Dict.update d other = (d ++ other)%list.
Proof.
  unfold Dict.update, Dict.wf, Dict.keys.
  revert d.
  induction other as [|[k v] other IH]; simpl; intros d Hnd Hfresh.
  - now rewrite app_nil_r.
  - inversion Hnd as [|? ? Hnotin Hnd']; subst.
    rewrite set_fresh by (apply Hfresh; now left).
    rewrite IH.
    + now rewrite <- app_assoc.
    + assumption.
    + intros k' Hin Hin'. rewrite map_app in Hin'. apply in_app_or in Hin'.
      destruct Hin' as [Hin' | [<- | []]].
      * apply (Hfresh k'); [now right | assumption].
      * now apply Hnotin.
Qed.

Lemma get_set_same (d : Dict.t V) (k : string) (v : V) :
  Dict.get k (Dict.set k v d) = Some v.
Proof.
  induction d as [|[k' v'] d IH]; simpl.
  - now rewrite String.eqb_refl.
  - destruct (String.eqb_spec k k') as [->|Hne]; simpl.
    + now rewrite String.eqb_refl.
    + destruct (String.eqb_spec k k'); [contradiction | assumption].
Qed.

Lemma get_set_other (d : Dict.t V) (k k' : string) (v : V) :
  k <> k' -> Dict.get k (Dict.set k' v d) = Dict.get k d.
Proof.
  intros Hne.
  induction d as [|[k0 v0] d IH]; simpl.
  - destruct (String.eqb_spec k k'); [contradiction | reflexivity].
  - destruct (String.eqb_spec k' k0) as [->|Hne0]; simpl.
    + destruct (String.eqb_spec k k0); [contradiction | reflexivity].
    + destruct (String.eqb_spec k k0); [reflexivity | assumption].
Qed.

End WithValue.

End DictFacts.

(** ** The authenticator *)

Module AuthFacts.

Import Auth.

Section WithPrimitives.

Variable hmac_sha256 : string -> string -> string.
Variable Val : Type.
Variable format_val : Val -> string.
Variable dumps_val : Val -> string.

Definition render (kv : string * Val) : string :=
  fst kv ++ "=" ++ format_val (snd kv).

Definition carry (kv : string * Val) : string * BodyVal Val :=
  (fst kv, BParam (snd kv)).

Lemma append_params_items (ps items : Dict.t Val) (request_params : list string) :
  (forall k v, In (k, v) items -> Dict.get k ps = Some v) ->
  append_params Val format_val ps (Dict.keys items) request_params
  = Ok (request_params ++ map render items)%list.
Proof.
  revert request_params.
  induction items as [|[k v] items IH]; simpl; intros request_params Hget.
  - now rewrite app_nil_r.
  - unfold Dict.getitem. rewrite (Hget k v) by now left. simpl.
    unfold Dict.keys in IH. rewrite IH.
    + now rewrite <- app_assoc.
    + intros k' v' Hin. apply Hget. now right.
Qed.

Lemma copy_params_items (ps items : Dict.t Val) (d : Dict.t (BodyVal Val)) :
  (forall k v, In (k, v) items -> Dict.get k ps = Some v) ->
  copy_params Val ps (Dict.keys items) d = Ok (Dict.update d (map carry items)).
Proof.
  revert d.
  induction items as [|[k v] items IH]; simpl; intros d Hget.
  - reflexivity.
  - unfold Dict.getitem. rewrite (Hget k v) by now left. simpl.
    unfold Dict.keys in IH. rewrite IH.
    + reflexivity.
    + intros k' v' Hin. apply Hget. now right.
Qed.

(** The message that is signed, and the three fields written first. *)
Definition message_of (auth : IndependentreserveAuth) (u : string) (ps : Dict.t Val) : string :=
  PyStr.join ","
    ([u; "apiKey=" ++ api_key auth;
      "nonce=" ++ PyStr.str_of_int (timestamp_of auth)] ++ map render ps).

Definition signature_of (auth : IndependentreserveAuth) (u : string) (ps : Dict.t Val) : string :=
  PyStr.upper
    (PyStr.hex
       (hmac_sha256 (PyStr.encode_utf8 (secret_key auth))
          (PyStr.encode_utf8 (message_of auth u ps)))).

Definition auth_fields (auth : IndependentreserveAuth) (u : string) (ps : Dict.t Val)
  : Dict.t (BodyVal Val) :=
  [("apiKey", BStr (api_key auth));
   ("nonce", BStr (PyStr.str_of_int (timestamp_of auth)));
   ("signature", BStr (signature_of auth u ps))].

Lemma signed_message_spec (auth : IndependentreserveAuth) (u : string)
  (p : option (Dict.t Val)) :
  Dict.wf (param_items p) ->
  signed_message Val format_val auth u p = Ok (message_of auth u (param_items p)).
Proof.
  intros Hwf. unfold signed_message, message_of.
  destruct p as [[|kv ps]|]; simpl truthy; cbv iota; try reflexivity.
  rewrite append_params_items.
  - reflexivity.
  - intros k v Hin. now apply DictFacts.get_of_item.
Qed.

Lemma auth_data_spec (auth : IndependentreserveAuth) (u : string)
  (p : option (Dict.t Val)) :
  Dict.wf (param_items p) ->
  auth_data hmac_sha256 Val format_val auth u p
  = Ok (Dict.update (auth_fields auth u (param_items p)) (map carry (param_items p))).
Proof.
  intros Hwf. unfold auth_data.
  rewrite signed_message_spec by assumption. simpl bind.
  destruct p as [[|kv ps]|]; simpl truthy; cbv iota; try reflexivity.
  rewrite copy_params_items.
  - reflexivity.
  - intros k v Hin. now apply DictFacts.get_of_item.
Qed.

(** The two branches on the request method coincide. *)
Lemma rest_authenticate_any_method
  (auth : IndependentreserveAuth) (request : RESTRequest Val) :
  rest_authenticate hmac_sha256 Val format_val dumps_val auth request
  = (body <- add_auth_to_data hmac_sha256 Val format_val dumps_val auth
               (url request) (params request) ;;
     Ok {| method := method request;
           url := url request;
           params := params request;
           data := Some body;
           headers :=
             Some (Dict.update
                     (match headers request with
                      | Some h => Dict.update [] h
                      | None => []
                      end)
                     header_for_authentication) |}).
Proof.
  unfold rest_authenticate. now destruct (method request).
Qed.

(** C1. For every URL, key, secret, nonce and parameter dict,
    [rest_authenticate] signs the comma-joined list made of the URL,
    [apiKey=<key>], [nonce=<nonce>] and one [k=v] entry per parameter in the
    dict's own key order; the signature written into the request body is the
    upper-cased hexadecimal HMAC-SHA256 of that string under the secret. *)
Theorem rest_authenticate_signs_joined_message
  (auth : IndependentreserveAuth) (request : RESTRequest Val) :
  Dict.wf (param_items (params request)) ->
  let ps := param_items (params request) in
  let nonce := PyStr.str_of_int (timestamp_of auth) in
  let message :=
    PyStr.join ","
      ([url request; "apiKey=" ++ api_key auth; "nonce=" ++ nonce]
         ++ map (fun kv => fst kv ++ "=" ++ format_val (snd kv)) ps) in
  let signature :=
    PyStr.upper
      (PyStr.hex
         (hmac_sha256 (PyStr.encode_utf8 (secret_key auth)) (PyStr.encode_utf8 message))) in
  signed_message Val format_val auth (url request) (params request) = Ok message
  /\ _generate_signature hmac_sha256 auth message = signature
  /\ exists request',
       rest_authenticate hmac_sha256 Val format_val dumps_val auth request = Ok request'
       /\ data request'
          = Some (Json.dumps_object (dumps_body_val Val dumps_val)
                    (Dict.update
                       [("apiKey", BStr (api_key auth));
                        ("nonce", BStr nonce);
                        ("signature", BStr signature)]
                       (map (fun kv => (fst kv, BParam (snd kv))) ps))).
Proof.
  intros Hwf ps nonce message signature.
  split; [exact (signed_message_spec auth (url request) (params request) Hwf)|].
  split; [reflexivity|].
  rewrite rest_authenticate_any_method. unfold add_auth_to_data.
  rewrite (auth_data_spec auth (url request) (params request) Hwf). simpl bind.
  eexists; split; reflexivity.
Qed.

(** C5, amended.  When no parameter is named [apiKey], [nonce] or
    [signature], the serialised body is the JSON object whose members are
    [apiKey], [nonce], [signature] and then the request parameters in their
    own order. *)
Theorem signed_body_field_order
  (auth : IndependentreserveAuth) (request : RESTRequest Val) :
  Dict.wf (param_items (params request)) ->
  (forall k, In k (Dict.keys (param_items (params request))) ->
             ~ In k ["apiKey"; "nonce"; "signature"]) ->
  exists (d : Dict.t (BodyVal Val)) (request' : RESTRequest Val),
    auth_data hmac_sha256 Val format_val auth (url request) (params request) = Ok d
    /\ Dict.keys d
       = (["apiKey"; "nonce"; "signature"] ++ Dict.keys (param_items (params request)))%list
    /\ (forall k v, In (k, v) (param_items (params request)) ->
                    Dict.get k d = Some (BParam v))
    /\ rest_authenticate hmac_sha256 Val format_val dumps_val auth request = Ok request'
    /\ data request'
       = Some ("{"
               ++ PyStr.join ", "
                    (map (fun kv => Json.member (fst kv) (dumps_body_val Val dumps_val (snd kv))) d)
               ++ "}").
Proof.
  intros Hwf Hfresh.
  assert (Hd := auth_data_spec auth (url request) (params request) Hwf).
  set (ps := param_items (params request)) in *.
  assert (Hwf' : Dict.wf (map carry ps)).
  { unfold Dict.wf, Dict.keys, carry in *. now rewrite map_map. }
  assert (Hkeys : Dict.keys (map carry ps) = Dict.keys ps).
  { unfold Dict.keys, carry. now rewrite map_map. }
  rewrite DictFacts.update_fresh in Hd.
  - eexists. eexists. split; [exact Hd|].
    split.
    { unfold Dict.keys at 1. rewrite map_app. fold (Dict.keys (map carry ps)).
      now rewrite Hkeys. }
    split.
    { intros k v Hin. apply DictFacts.get_of_item.
      - unfold Dict.wf, Dict.keys. rewrite map_app.
        fold (Dict.keys (map carry ps)). rewrite Hkeys.
        simpl. repeat constructor; simpl.
        + intros [H|[H|H]]; try discriminate H.
          apply (Hfresh _ H). simpl. tauto.
        + intros [H|H]; try discriminate H.
          apply (Hfresh _ H). simpl. tauto.
        + intros H. apply (Hfresh _ H). simpl. tauto.
        + exact Hwf.
      - apply in_or_app. right. now apply (in_map carry) in Hin. }
    rewrite rest_authenticate_any_method. unfold add_auth_to_data.
    rewrite Hd. simpl bind. split; reflexivity.
  - exact Hwf'.
  - rewrite Hkeys. exact Hfresh.
Qed.

End WithPrimitives.

(** A fixture: string parameters, an HMAC stand-in that returns one byte. *)
Definition toy_hmac (key msg : string) : string := "k".

Definition test_auth : IndependentreserveAuth :=
  {| api_key := "TEST_API_KEY"; secret_key := "TEST_SECRET"; time_provider := 1000 # 1 |}.

Definition request_with (ps : option (Dict.t string)) : RESTRequest string :=
  {| method := POST;
     url := "https://api.independentreserve.com/Private/GetTrades";
     params := ps;
     data := None;
     headers := None |}.

Definition paged_request : RESTRequest string :=
  request_with (Some [("pageIndex", "1"); ("pageSize", "25")]).

(** A request one of whose parameters is named like an authentication field. *)
Definition colliding_request : RESTRequest string :=
  request_with (Some [("nonce", "7")]).

Lemma rest_authenticate_signs_joined_message_witness :
  Dict.wf (param_items (params paged_request))
  /\ signed_message string (fun v => v) test_auth (url paged_request) (params paged_request)
     = Ok "https://api.independentreserve.com/Private/GetTrades,apiKey=TEST_API_KEY,nonce=1000000,pageIndex=1,pageSize=25".
Proof.
  assert (Hwf : Dict.wf (param_items (params paged_request))).
  { unfold Dict.wf. simpl. repeat constructor; simpl; intuition discriminate. }
  split; [exact Hwf|].
  exact (proj1 (rest_authenticate_signs_joined_message toy_hmac string (fun v => v)
                  Json.encode_string test_auth paged_request Hwf)).
Defined.

Lemma signed_body_field_order_witness :
  Dict.wf (param_items (params paged_request))
  /\ (forall k, In k (Dict.keys (param_items (params paged_request))) ->
                ~ In k ["apiKey"; "nonce"; "signature"])
  /\ exists (d : Dict.t (BodyVal string)) (request' : RESTRequest string),
       auth_data toy_hmac string (fun v => v) test_auth (url paged_request)
         (params paged_request) = Ok d
       /\ Dict.keys d = ["apiKey"; "nonce"; "signature"; "pageIndex"; "pageSize"]
       /\ (forall k v, In (k, v) (param_items (params paged_request)) ->
                       Dict.get k d = Some (BParam v))
       /\ rest_authenticate toy_hmac string (fun v => v) Json.encode_string test_auth
            paged_request = Ok request'
       /\ data request'
          = Some ("{"
                  ++ PyStr.join ", "
                       (map (fun kv => Json.member (fst kv)
                                         (dumps_body_val string Json.encode_string (snd kv))) d)
                  ++ "}").
Proof.
  assert (Hwf : Dict.wf (param_items (params paged_request))).
  { unfold Dict.wf. simpl. repeat constructor; simpl; intuition discriminate. }
  assert (Hfresh : forall k, In k (Dict.keys (param_items (params paged_request))) ->
                             ~ In k ["apiKey"; "nonce"; "signature"]).
  { simpl. intros k [<-|[<-|[]]]; intuition discriminate. }
  split; [exact Hwf|]. split; [exact Hfresh|].
  exact (signed_body_field_order toy_hmac string (fun v => v) Json.encode_string
           test_auth paged_request Hwf Hfresh).
Defined.

(** C5 as stated fails when a parameter is named [nonce]: the assignment
    [data["nonce"] = params["nonce"]] overwrites the authenticator's field in
    place, so the body has three members and not four. *)
Lemma signed_body_field_order_counterexample :
  exists d : Dict.t (BodyVal string),
    auth_data toy_hmac string (fun v => v) test_auth (url colliding_request)
      (params colliding_request) = Ok d
    /\ Dict.keys d = ["apiKey"; "nonce"; "signature"]
    /\ Dict.get "nonce" d = Some (BParam "7")
    /\ Dict.keys d
       <> (["apiKey"; "nonce"; "signature"]
             ++ Dict.keys (param_items (params colliding_request)))%list.
Proof.
  eexists. split; [reflexivity|].
  split; [reflexivity|]. split; [reflexivity|]. discriminate.
Qed.

End AuthFacts.

(** ** The normaliser *)

Module OrderBookFacts.

Import OrderBook.

(** One step through a chain of binds whose result is known to be [Ok]:
    the first computation is split into its two outcomes and the raising
    one is discarded. *)
Ltac step_bind :=
  match goal with
  | |- bind ?r _ = Ok _ -> _ => destruct r; simpl; [|discriminate]
  end.

Section WithLibrary.

Variable strptime : string -> option Z.
Variable str_nonstring : json -> string.
Variable trade_type_sell : Q.
Variable trade_type_buy : Q.

(** The clean-up of [CreatedTimestampUtc] on a string with one dot: the part
    before the dot goes to [strptime]; the part after it loses its last
    character, is read as an integer and is added as that many thousandths
    of a microsecond, rounded to a whole microsecond. *)
Lemma parse_created_timestamp_spec (msg : Dict.t json) (s head frac : string) (t n : Z) :
  Dict.get "CreatedTimestampUtc" msg = Some (JStr s) ->
  PyStr.split "."%char s = [head; frac] ->
  strptime head = Some t ->
  Py.int_of_str (PyStr.drop_last frac) = Ok n ->
  parse_created_timestamp strptime msg = Ok (t + Py.round_half_even_div n 1000).
Proof.
  intros Hget Hsplit Hhead Hint.
  unfold parse_created_timestamp, Dict.getitem.
  rewrite Hget. simpl. rewrite Hsplit. simpl. rewrite Hhead. simpl.
  rewrite Hint. reflexivity.
Qed.

(** The snapshot message never looks at the parsed instant. *)
Lemma snapshot_message_from_exchange_parsed (msg : Dict.t json) (ts : Q)
  (metadata : option (Dict.t json)) (t : Z) :
  parse_created_timestamp strptime msg = Ok t ->
  snapshot_message_from_exchange strptime msg ts metadata
  = (buy_orders <- Dict.getitem "BuyOrders" msg ;;
     buys <- Py.iterate buy_orders ;;
     bids <- price_volume_pairs buys ;;
     sell_orders <- Dict.getitem "SellOrders" msg ;;
     sells <- Py.iterate sell_orders ;;
     asks <- price_volume_pairs sells ;;
     trading_pair <- Py.opt_getitem metadata "trading_pair" ;;
     Ok {| msg_type := SNAPSHOT;
           content := [("trading_pair", trading_pair);
                       ("update_id", JNum (inject_Z 0));
                       ("bids", JArr bids);
                       ("asks", JArr asks)];
           timestamp := Some ts |}).
Proof.
  intros Hparse. unfold snapshot_message_from_exchange. now rewrite Hparse.
Qed.

(** Whatever a snapshot message is built from, its fields are fixed in the
    same way: the type, the update id 0 and the caller's timestamp. *)
Lemma snapshot_message_fields (msg : Dict.t json) (ts : Q)
  (metadata : option (Dict.t json)) (m : OrderBookMessage) :
  snapshot_message_from_exchange strptime msg ts metadata = Ok m ->
  msg_type m = SNAPSHOT
  /\ Dict.get "update_id" (content m) = Some (JNum (inject_Z 0))
  /\ timestamp m = Some ts.
Proof.
  unfold snapshot_message_from_exchange.
  repeat step_bind.
  intros H. inversion H; subst. simpl. repeat split; reflexivity.
Qed.

(** C10. When the [CreatedTimestampUtc] of a payload parses, the snapshot
    message carries exactly the caller's timestamp, and two payloads that
    agree on every other key give the same result: the instant read from the
    wire reaches no field of the message. *)
Theorem snapshot_ignores_wire_timestamp (msg msg' : Dict.t json) (ts : Q)
  (metadata : option (Dict.t json)) :
  (forall k, k <> "CreatedTimestampUtc" -> Dict.get k msg = Dict.get k msg') ->
  (exists t, parse_created_timestamp strptime msg = Ok t) ->
  (exists t', parse_created_timestamp strptime msg' = Ok t') ->
  snapshot_message_from_exchange strptime msg ts metadata
  = snapshot_message_from_exchange strptime msg' ts metadata
  /\ forall m, snapshot_message_from_exchange strptime msg ts metadata = Ok m ->
               timestamp m = Some ts.
Proof.
  intros Hagree [t Ht] [t' Ht']. split.
  - rewrite (snapshot_message_from_exchange_parsed msg ts metadata t Ht).
    rewrite (snapshot_message_from_exchange_parsed msg' ts metadata t' Ht').
    unfold Dict.getitem.
    rewrite (Hagree "BuyOrders") by discriminate.
    rewrite (Hagree "SellOrders") by discriminate.
    reflexivity.
  - intros m Hm. now apply snapshot_message_fields in Hm.
Qed.

End WithLibrary.

(** Fixtures: a [strptime] that accepts the one instant used below and puts
    it at the origin of the time line, and two order-book payloads that
    differ in their creation stamp only. *)
Definition noon_strptime (s : string) : option Z :=
  if String.eqb s "2021-05-01T12:00:00" then Some 0 else None.

Definition book_payload (created : string) : Dict.t json :=
  [("BuyOrders", JArr [JObj [("Price", JNum (6150 # 1)); ("Volume", JNum (1 # 2))]]);
   ("SellOrders", JArr [JObj [("Price", JNum (6160 # 1)); ("Volume", JNum (3 # 4))]]);
   ("CreatedTimestampUtc", JStr created);
   ("PrimaryCurrencyCode", JStr "Xbt");
   ("SecondaryCurrencyCode", JStr "Usd")].

Definition pair_metadata (trading_pair : string) : option (Dict.t json) :=
  Some [("trading_pair", JStr trading_pair)].

Lemma snapshot_ignores_wire_timestamp_witness :
  snapshot_message_from_exchange noon_strptime
    (book_payload "2021-05-01T12:00:00.1234567Z") (1620000000 # 1) (pair_metadata "Xbt-Usd")
  = snapshot_message_from_exchange noon_strptime
      (book_payload "2021-05-01T12:00:00.7654321Z") (1620000000 # 1) (pair_metadata "Xbt-Usd")
  /\ forall m,
       snapshot_message_from_exchange noon_strptime
         (book_payload "2021-05-01T12:00:00.1234567Z") (1620000000 # 1)
         (pair_metadata "Xbt-Usd") = Ok m ->
       timestamp m = Some (1620000000 # 1).
Proof.
  apply (snapshot_ignores_wire_timestamp noon_strptime).
  - intros k Hk. unfold book_payload. simpl.
    destruct (String.eqb k "BuyOrders"); [reflexivity|].
    destruct (String.eqb k "SellOrders"); [reflexivity|].
    destruct (String.eqb_spec k "CreatedTimestampUtc"); [contradiction|reflexivity].
  - eexists. vm_compute. reflexivity.
  - eexists. vm_compute. reflexivity.
Defined.

(** C4, on the code.  The stamp of the claim, with its seven sub-second
    digits, is parsed to 1235 microseconds past the second, not to 123456:
    the character dropped is the trailing letter, the digits are read as a
    count of nanoseconds whatever their number, and the quotient by 1000 is
    rounded.  Six and nine digits of the same fraction give other instants. *)
Theorem created_timestamp_depends_on_digit_count
  (strptime : string -> option Z) (t0 : Z) :
  strptime "2021-05-01T12:00:00" = Some t0 ->
  parse_created_timestamp strptime
    [("CreatedTimestampUtc", JStr "2021-05-01T12:00:00.1234567Z")] = Ok (t0 + 1235)
  /\ parse_created_timestamp strptime
       [("CreatedTimestampUtc", JStr "2021-05-01T12:00:00.123456Z")] = Ok (t0 + 123)
  /\ parse_created_timestamp strptime
       [("CreatedTimestampUtc", JStr "2021-05-01T12:00:00.123456789Z")] = Ok (t0 + 123457).
Proof.
  intros Hhead. split; [|split].
  - now rewrite (parse_created_timestamp_spec strptime
                   [("CreatedTimestampUtc", JStr "2021-05-01T12:00:00.1234567Z")]
                   "2021-05-01T12:00:00.1234567Z" "2021-05-01T12:00:00" "1234567Z"
                   t0 1234567 eq_refl eq_refl Hhead eq_refl).
  - now rewrite (parse_created_timestamp_spec strptime
                   [("CreatedTimestampUtc", JStr "2021-05-01T12:00:00.123456Z")]
                   "2021-05-01T12:00:00.123456Z" "2021-05-01T12:00:00" "123456Z"
                   t0 123456 eq_refl eq_refl Hhead eq_refl).
  - now rewrite (parse_created_timestamp_spec strptime
                   [("CreatedTimestampUtc", JStr "2021-05-01T12:00:00.123456789Z")]
                   "2021-05-01T12:00:00.123456789Z" "2021-05-01T12:00:00" "123456789Z"
                   t0 123456789 eq_refl eq_refl Hhead eq_refl).
Qed.

Lemma created_timestamp_depends_on_digit_count_witness :
  noon_strptime "2021-05-01T12:00:00" = Some 0
  /\ parse_created_timestamp noon_strptime
       [("CreatedTimestampUtc", JStr "2021-05-01T12:00:00.1234567Z")] = Ok 1235.
Proof.
  split; [reflexivity|].
  exact (proj1 (created_timestamp_depends_on_digit_count noon_strptime 0 eq_refl)).
Defined.

(** The price loop keeps the value stored under the key that equals the
    code character for character, and leaves [price] as it was when there is
    no such key. *)
Lemma select_price_exact (code : string) (entries : list (string * json))
  (price : option json) (v : json) :
  Dict.wf entries -> In (code, v) entries -> select_price code entries price = Some v.
Proof.
  unfold Dict.wf, Dict.keys. revert price.
  induction entries as [|[k x] entries IH]; simpl; intros price Hnd Hin; [contradiction|].
  inversion Hnd as [|? ? Hnotin Hnd']; subst.
  destruct Hin as [Heq | Hin].
  - inversion Heq; subst. rewrite String.eqb_refl.
    clear IH Hnd. revert Hnotin. generalize (Some v) as acc.
    induction entries as [|[k' x'] entries IH]; simpl; intros acc Hnotin; [reflexivity|].
    destruct (String.eqb_spec code k') as [->|Hne].
    + exfalso. apply Hnotin. now left.
    + inversion Hnd' as [|? ? Hn' Hnd'']; subst.
      apply IH; [assumption|]. intros H. apply Hnotin. now right.
  - now apply IH.
Qed.

Lemma select_price_absent (code : string) (entries : list (string * json))
  (price : option json) :
  ~ In code (Dict.keys entries) -> select_price code entries price = price.
Proof.
  unfold Dict.keys. revert price.
  induction entries as [|[k x] entries IH]; simpl; intros price Hnotin; [reflexivity|].
  destruct (String.eqb_spec code k) as [->|Hne].
  - exfalso. apply Hnotin. now left.
  - apply IH. intros H. apply Hnotin. now right.
Qed.

(** A trade event and an order event of the exchange, both quoting the price
    in US and in Australian dollars under lower-case keys. *)
Definition two_prices : json := JObj [("usd", JStr "100"); ("aud", JStr "140")].

Definition trade_event : Dict.t json :=
  [("Channel", JStr "ticker-xbt");
   ("Nonce", JNum (7 # 1));
   ("Data", JObj [("TradeGuid", JStr "c5bb0ff4");
                  ("Pair", JStr "xbt-aud");
                  ("Price", two_prices);
                  ("Volume", JNum (1 # 2));
                  ("Side", JStr "Buy")]);
   ("Time", JNum (1620000000000 # 1));
   ("Event", JStr "Trade")].

Definition order_event (event : string) : Dict.t json :=
  [("Channel", JStr "orderbook-xbt");
   ("Nonce", JNum (8 # 1));
   ("Data", JObj [("OrderType", JStr "LimitBid");
                  ("OrderGuid", JStr "dbe7b832");
                  ("Price", two_prices);
                  ("Volume", JNum (1 # 4))]);
   ("Time", JNum (1620000000000 # 1));
   ("Event", JStr event)].

(** C2, on the code.  With the prices keyed [usd] and [aud] and the pair
    [XBT-AUD], the trade normaliser compares [AUD] with each key character
    for character, finds none, and reaches the use of the unbound local
    [price]: no message is produced. *)
Theorem trade_price_lookup_is_case_sensitive (trade_type_sell trade_type_buy : Q) :
  trade_message_from_exchange trade_type_sell trade_type_buy trade_event
    (pair_metadata "XBT-AUD") = Raise UnboundLocalError.
Proof. reflexivity. Qed.

(** The pair spelt as the key is, is served. *)
Lemma trade_price_lookup_same_spelling (trade_type_sell trade_type_buy : Q) :
  exists m,
    trade_message_from_exchange trade_type_sell trade_type_buy trade_event
      (pair_metadata "Xbt-aud") = Ok m
    /\ Dict.get "price" (content m) = Some (JStr "140").
Proof. eexists. split; reflexivity. Qed.

(** The sibling normaliser lower-cases the quote code before it indexes the
    same price map, and serves the pair [XBT-AUD]. *)
Lemma diff_price_lookup_lower_cases (strptime : string -> option Z)
  (str_nonstring : json -> string) (ts : option Q) :
  exists m,
    diff_message_from_exchange strptime str_nonstring (order_event "NewOrder") ts
      (pair_metadata "XBT-AUD") = Ok m
    /\ Dict.get "bids" (content m) = Some (JArr [JArr [JStr "140"; JStr (str_nonstring (JNum (1 # 4)))]]).
Proof. eexists. split; reflexivity. Qed.

End OrderBookFacts.

(** ** The bidict *)

Module BidictFacts.

Import Bidict.

Lemma symbol_eqb_spec (a b : symbol) : reflect (a = b) (symbol_eqb a b).
Proof.
  destruct a as [a1 a2], b as [b1 b2]. unfold symbol_eqb. simpl.
  destruct (String.eqb_spec a1 b1) as [->|H1]; simpl.
  - destruct (String.eqb_spec a2 b2) as [->|H2]; constructor; congruence.
  - constructor. congruence.
Qed.

Lemma get_some_in (key : symbol) (m : t) (v : string) :
  get key m = Some v -> In (key, v) m.
Proof.
  induction m as [|[k x] m IH]; simpl; [discriminate|].
  destruct (symbol_eqb_spec key k) as [->|Hne]; intros H.
  - inversion H; subst. now left.
  - right. now apply IH.
Qed.

Lemma get_none_notin (key : symbol) (m : t) :
  get key m = None -> ~ In key (map fst m).
Proof.
  induction m as [|[k x] m IH]; simpl; intros H; [tauto|].
  destruct (symbol_eqb_spec key k) as [->|Hne]; [discriminate|].
  intros [Heq|Hin]; [congruence | now apply IH].
Qed.

Lemma get_notin_none (key : symbol) (m : t) :
  ~ In key (map fst m) -> get key m = None.
Proof.
  induction m as [|[k x] m IH]; simpl; intros H; [reflexivity|].
  destruct (symbol_eqb_spec key k) as [->|Hne]; [exfalso; apply H; now left|].
  apply IH. intros Hin. apply H. now right.
Qed.

Lemma get_inverse_some_in (val : string) (m : t) (k : symbol) :
  get_inverse val m = Some k -> In (k, val) m.
Proof.
  induction m as [|[k' x] m IH]; simpl; [discriminate|].
  destruct (String.eqb_spec val x) as [->|Hne]; intros H.
  - inversion H; subst. now left.
  - right. now apply IH.
Qed.

Lemma get_inverse_none_notin (val : string) (m : t) :
  get_inverse val m = None -> ~ In val (map snd m).
Proof.
  induction m as [|[k x] m IH]; simpl; intros H; [tauto|].
  destruct (String.eqb_spec val x) as [->|Hne]; [discriminate|].
  intros [Heq|Hin]; [congruence | now apply IH].
Qed.

Lemma get_inverse_notin_none (val : string) (m : t) :
  ~ In val (map snd m) -> get_inverse val m = None.
Proof.
  induction m as [|[k x] m IH]; simpl; intros H; [reflexivity|].
  destruct (String.eqb_spec val x) as [->|Hne]; [exfalso; apply H; now left|].
  apply IH. intros Hin. apply H. now right.
Qed.

Lemma get_of_in (m : t) (k : symbol) (v : string) :
  NoDup (map fst m) -> In (k, v) m -> get k m = Some v.
Proof.
  induction m as [|[k' x] m IH]; simpl; intros Hnd Hin; [contradiction|].
  inversion Hnd as [|? ? Hnotin Hnd']; subst.
  destruct Hin as [Heq|Hin].
  - inversion Heq; subst. now destruct (symbol_eqb_spec k k).
  - destruct (symbol_eqb_spec k k') as [->|Hne].
    + exfalso. apply Hnotin. now apply (in_map fst) in Hin.
    + now apply IH.
Qed.

Lemma get_inverse_of_in (m : t) (k : symbol) (v : string) :
  NoDup (map snd m) -> In (k, v) m -> get_inverse v m = Some k.
Proof.
  induction m as [|[k' x] m IH]; simpl; intros Hnd Hin; [contradiction|].
  inversion Hnd as [|? ? Hnotin Hnd']; subst.
  destruct Hin as [Heq|Hin].
  - inversion Heq; subst. now rewrite String.eqb_refl.
  - destruct (String.eqb_spec v x) as [->|Hne].
    + exfalso. apply Hnotin. now apply (in_map snd) in Hin.
    + now apply IH.
Qed.

(** In a well-formed bidict the two lookups are inverse to each other. *)
Lemma get_iff_get_inverse (m : t) (k : symbol) (v : string) :
  wf m -> (get k m = Some v <-> get_inverse v m = Some k).
Proof.
  intros [Hk Hv]. split; intros H.
  - apply get_inverse_of_in; [assumption|]. now apply get_some_in.
  - apply get_of_in; [assumption|]. now apply get_inverse_some_in.
Qed.

(** The name given to a symbol: [f"{pair[0]}-{pair[1]}"]. *)
Definition pair_name (s : symbol) : string := fst s ++ "-" ++ snd s.

(** Every value is the name of its key. *)
Definition named (m : t) : Prop := forall e, In e m -> snd e = pair_name (fst e).

(** On a bidict of named entries, storing a symbol under its name either
    finds it there already or appends it; the in-place change of a value
    does not arise. *)
Lemma put_named (m m' : t) (k : symbol) :
  named m -> put k (pair_name k) m = Ok m' ->
  (m' = m /\ In (k, pair_name k) m)
  \/ (m' = (m ++ [(k, pair_name k)])%list
      /\ ~ In k (map fst m) /\ ~ In (pair_name k) (map snd m)).
Proof.
  intros Hnamed. unfold put.
  destruct (get k m) as [v|] eqn:Hget; destruct (get_inverse (pair_name k) m) as [k0|] eqn:Hinv.
  - destruct (andb (String.eqb v (pair_name k)) (symbol_eqb k0 k)); [|discriminate].
    intros H. inversion H; subst. left. split; [reflexivity|].
    apply get_some_in in Hget. now rewrite <- (Hnamed _ Hget) at 1.
  - exfalso. apply get_some_in in Hget. apply get_inverse_none_notin in Hinv.
    apply Hinv. rewrite (Hnamed _ Hget : v = pair_name k) in Hget.
    now apply (in_map snd) in Hget.
  - discriminate.
  - intros H. inversion H; subst. right. split; [reflexivity|]. split.
    + now apply get_none_notin.
    + now apply get_inverse_none_notin.
Qed.

End BidictFacts.

(** ** The symbol map *)

Module SymbolMapFacts.

Import DataSource.
Import BidictFacts.

Definition primary_codes_url (domain : string) : string :=
  "https://api.independentreserve." ++ domain ++ "/Public/GetValidPrimaryCurrencyCodes".

Definition secondary_codes_url (domain : string) : string :=
  "https://api.independentreserve." ++ domain ++ "/Public/GetValidSecondaryCurrencyCodes".

Lemma primary_url_spec (domain : string) :
  Utils.public_rest_url Constants.PRIMARY_CURRENCY_CODES_PATH_URL None domain
  = Ok (primary_codes_url domain).
Proof.
  unfold Utils.public_rest_url, primary_codes_url, Constants.REST_URL.
  simpl. reflexivity.
Qed.

Lemma secondary_url_spec (domain : string) :
  Utils.public_rest_url Constants.SECONDARY_CURRENCY_CODES_PATH_URL None domain
  = Ok (secondary_codes_url domain).
Proof.
  unfold Utils.public_rest_url, secondary_codes_url, Constants.REST_URL.
  simpl. reflexivity.
Qed.

(** A fetch fails when the call raises or the status is not 200. *)
Definition fetch_failed (o : rest_outcome (list string)) : Prop :=
  match o with
  | CallRaises _ => True
  | Response status _ => status <> 200
  end.

Lemma fetch_codes_failed (call : string -> rest_outcome (list string)) (u : string) :
  fetch_failed (call u) ->
  fetch_codes call u = Ok None \/ fetch_codes call u = Raise CancelledError.
Proof.
  unfold fetch_failed, fetch_codes.
  destruct (call u) as [e|status body].
  - intros _. destruct e; auto.
  - intros Hne. destruct (Z.eqb_spec status 200); [contradiction | now left].
Qed.

Lemma fetch_codes_total (call : string -> rest_outcome (list string)) (u : string) :
  (exists data, fetch_codes call u = Ok data) \/ fetch_codes call u = Raise CancelledError.
Proof.
  unfold fetch_codes.
  destruct (call u) as [e|status body].
  - destruct e; eauto.
  - destruct (status =? 200); eauto.
Qed.

Lemma build_mapping_spec (call : string -> rest_outcome (list string)) (domain : string) :
  build_mapping call domain
  = (primary_data <- fetch_codes call (primary_codes_url domain) ;;
     secondary_data <- fetch_codes call (secondary_codes_url domain) ;;
     primary_data <- of_option UnboundLocalError primary_data ;;
     secondary_data <- of_option UnboundLocalError secondary_data ;;
     fill_mapping (list_prod primary_data secondary_data) []).
Proof.
  unfold build_mapping. rewrite primary_url_spec, secondary_url_spec. reflexivity.
Qed.

(** A failed fetch leaves its data unbound, and the product is never built. *)
Lemma build_mapping_failed (call : string -> rest_outcome (list string)) (domain : string) :
  fetch_failed (call (primary_codes_url domain))
  \/ fetch_failed (call (secondary_codes_url domain)) ->
  exists e, build_mapping call domain = Raise e.
Proof.
  intros Hfail. rewrite build_mapping_spec.
  destruct Hfail as [Hp|Hs].
  - destruct (fetch_codes_failed call _ Hp) as [-> | ->]; simpl; [|eauto].
    destruct (fetch_codes_total call (secondary_codes_url domain)) as [[d ->] | ->];
      simpl; eauto.
  - destruct (fetch_codes_total call (primary_codes_url domain)) as [[d ->] | ->];
      simpl; [|eauto].
    destruct (fetch_codes_failed call _ Hs) as [-> | ->]; simpl; [|eauto].
    destruct d; simpl; eauto.
Qed.

(** C7. If either currency-code fetch fails, by raising or by a status other
    than 200, the initialisation raises and leaves the class state as it
    was: nothing is published for the domain.  A domain that was not ready
    is still not ready, its caller gets the exception, and the next call of
    [trading_pair_symbol_map] runs the initialisation again. *)
Theorem failed_fetch_publishes_nothing
  (call : string -> rest_outcome (list string)) (st : symbol_maps) (domain : string) :
  fetch_failed (call (primary_codes_url domain))
  \/ fetch_failed (call (secondary_codes_url domain)) ->
  (exists e, _init_trading_pair_symbols call st domain = (st, Raise e))
  /\ (trading_pair_symbol_map_ready st domain = false ->
      (exists e, trading_pair_symbol_map call st domain = (st, Raise e))
      /\ trading_pair_symbol_map_ready (fst (trading_pair_symbol_map call st domain)) domain
         = false
      /\ forall call',
           fst (trading_pair_symbol_map call' (fst (trading_pair_symbol_map call st domain))
                  domain)
           = fst (_init_trading_pair_symbols call' st domain)).
Proof.
  intros Hfail.
  destruct (build_mapping_failed call domain Hfail) as [e He].
  assert (Hinit : _init_trading_pair_symbols call st domain = (st, Raise e)).
  { unfold _init_trading_pair_symbols. now rewrite He. }
  split; [eauto|].
  intros Hready.
  assert (Hmap : trading_pair_symbol_map call st domain = (st, Raise e)).
  { unfold trading_pair_symbol_map. rewrite Hready. simpl negb. cbv iota.
    now rewrite Hinit. }
  split; [eauto|]. rewrite Hmap. simpl fst. split; [assumption|].
  intros call'. unfold trading_pair_symbol_map. rewrite Hready. simpl negb. cbv iota.
  now destruct (_init_trading_pair_symbols call' st domain).
Qed.

(** Filling a bidict of named entries from a list of symbols keeps it well
    formed and named, and its entries are the old ones and the listed
    symbols under their names. *)
Lemma fill_mapping_spec (pairs : list Bidict.symbol) (m m' : Bidict.t) :
  named m -> Bidict.wf m -> fill_mapping pairs m = Ok m' ->
  named m' /\ Bidict.wf m'
  /\ (forall e, In e m' <-> In e m \/ (In (fst e) pairs /\ snd e = pair_name (fst e))).
Proof.
  revert m.
  induction pairs as [|k pairs IH]; simpl; intros m Hnamed Hwf Hfill.
  - inversion Hfill; subst. split; [assumption|]. split; [assumption|].
    intros e. split; [tauto|]. intros [H | [[] _]]. assumption.
  - change (bind (Bidict.put k (pair_name k) m) (fill_mapping pairs) = Ok m') in Hfill.
    destruct (Bidict.put k (pair_name k) m) as [m1|] eqn:Hput;
      simpl in Hfill; [|discriminate Hfill].
    destruct (put_named m m1 k Hnamed Hput) as [[-> Hin] | [-> [Hk Hv]]].
    + destruct (IH m Hnamed Hwf Hfill) as [Hn' [Hwf' Hiff]].
      split; [assumption|]. split; [assumption|].
      intros e. split.
      * intros He. apply Hiff in He. destruct He as [He | [He Hs]]; auto.
      * intros [He | [[Heq | He] Hs]].
        -- apply Hiff. now left.
        -- apply Hiff. left. destruct e as [e1 e2]. simpl in *. subst. assumption.
        -- apply Hiff. right. now split.
    + assert (Hnamed1 : named (m ++ [(k, pair_name k)])%list).
      { intros e He. apply in_app_or in He. destruct He as [He | [<- | []]]; auto. }
      assert (Hwf1 : Bidict.wf (m ++ [(k, pair_name k)])%list).
      { destruct Hwf as [Hkeys Hvals]. split; rewrite map_app; simpl.
        - apply NoDup_app; [assumption | repeat constructor; simpl; tauto |].
          intros a Ha [<- | []]. contradiction.
        - apply NoDup_app; [assumption | repeat constructor; simpl; tauto |].
          intros a Ha [<- | []]. contradiction. }
      destruct (IH _ Hnamed1 Hwf1 Hfill) as [Hn' [Hwf' Hiff]].
      split; [assumption|]. split; [assumption|].
      intros e. split.
      * intros He. apply Hiff in He. destruct He as [He | [He Hs]]; auto.
        apply in_app_or in He. destruct He as [He | [<- | []]]; auto.
      * intros [He | [[Heq | He] Hs]].
        -- apply Hiff. left. apply in_or_app. now left.
        -- apply Hiff. left. apply in_or_app. right. left.
           destruct e as [e1 e2]. simpl in *. now subst.
        -- apply Hiff. right. now split.
Qed.

Lemma of_option_ok {A : Type} (e : PyExc) (o : option A) (a : A) :
  of_option e o = Ok a <-> o = Some a.
Proof. destruct o; simpl; split; intros H; inversion H; reflexivity. Qed.

(** Once a domain is ready, the map is returned without any fetch. *)
Lemma trading_pair_symbol_map_of_ready (call : string -> rest_outcome (list string))
  (st : symbol_maps) (domain : string) (mapping : Bidict.t) :
  Dict.get domain st = Some mapping -> mapping <> [] ->
  trading_pair_symbol_map call st domain = (st, Ok mapping).
Proof.
  intros Hget Hne. unfold trading_pair_symbol_map, trading_pair_symbol_map_ready.
  rewrite Hget. destruct mapping; [contradiction|]. simpl.
  unfold Dict.getitem. now rewrite Hget.
Qed.

(** What a successful initialisation publishes. *)
Lemma init_published (call0 : string -> rest_outcome (list string))
  (st0 st : symbol_maps) (domain : string) (primary secondary : list string) :
  call0 (primary_codes_url domain) = Response 200 primary ->
  call0 (secondary_codes_url domain) = Response 200 secondary ->
  _init_trading_pair_symbols call0 st0 domain = (st, Ok tt) ->
  exists mapping,
    fill_mapping (list_prod primary secondary) [] = Ok mapping
    /\ Dict.get domain st = Some mapping.
Proof.
  intros Hp Hs. unfold _init_trading_pair_symbols.
  rewrite build_mapping_spec. unfold fetch_codes. rewrite Hp, Hs. simpl.
  destruct (fill_mapping (list_prod primary secondary) []) as [mapping|e]; intros H.
  - inversion H; subst. exists mapping. split; [reflexivity|].
    apply DictFacts.get_set_same.
  - inversion H.
Qed.

(** C8. For a domain whose map was populated from the product of the two
    code lists, the two lookups are inverse to each other: a symbol
    translates to a pair exactly when that pair translates back to the
    symbol, each listed combination is found under its name, and a symbol or
    a pair that is not in the map raises [KeyError]. *)
Theorem symbol_lookups_are_inverse
  (call0 : string -> rest_outcome (list string)) (st0 st : symbol_maps)
  (domain : string) (primary secondary : list string) :
  call0 (primary_codes_url domain) = Response 200 primary ->
  call0 (secondary_codes_url domain) = Response 200 secondary ->
  primary <> [] -> secondary <> [] ->
  _init_trading_pair_symbols call0 st0 domain = (st, Ok tt) ->
  forall call : string -> rest_outcome (list string),
    (forall symbol pair,
        trading_pair_associated_to_exchange_symbol call st symbol domain = (st, Ok pair)
        <-> exchange_symbol_associated_to_pair call st pair domain = (st, Ok symbol))
    /\ (forall p s, In p primary -> In s secondary ->
          trading_pair_associated_to_exchange_symbol call st (p, s) domain
          = (st, Ok (p ++ "-" ++ s))
          /\ exchange_symbol_associated_to_pair call st (p ++ "-" ++ s) domain
             = (st, Ok (p, s)))
    /\ (forall symbol, ~ In symbol (list_prod primary secondary) ->
          trading_pair_associated_to_exchange_symbol call st symbol domain
          = (st, Raise KeyError))
    /\ (forall pair,
          (forall symbol, In symbol (list_prod primary secondary) -> pair <> pair_name symbol) ->
          exchange_symbol_associated_to_pair call st pair domain = (st, Raise KeyError)).
Proof.
  intros Hp Hs Hpne Hsne Hinit call.
  destruct (init_published call0 st0 st domain primary secondary Hp Hs Hinit)
    as [mapping [Hfill Hget]].
  assert (Hempty_named : named []) by (intros e []).
  assert (Hempty_wf : Bidict.wf []) by (split; constructor).
  destruct (fill_mapping_spec _ _ _ Hempty_named Hempty_wf Hfill) as [Hnamed [Hwf Hiff]].
  assert (Hentry : forall p s, In p primary -> In s secondary ->
                               In ((p, s), p ++ "-" ++ s) mapping).
  { intros p s Hinp Hins. apply Hiff. right. simpl. split; [|reflexivity].
    now apply in_prod. }
  assert (Hne : mapping <> []).
  { destruct primary as [|p ?]; [contradiction|]. destruct secondary as [|s ?]; [contradiction|].
    intros ->. apply (Hentry p s); now left. }
  assert (Hmap := trading_pair_symbol_map_of_ready call st domain mapping Hget Hne).
  assert (HtoPair : forall symbol,
             trading_pair_associated_to_exchange_symbol call st symbol domain
             = (st, Bidict.getitem symbol mapping)).
  { intros symbol. unfold trading_pair_associated_to_exchange_symbol. now rewrite Hmap. }
  assert (HtoExchange : forall pair,
             exchange_symbol_associated_to_pair call st pair domain
             = (st, Bidict.inverse_getitem pair mapping)).
  { intros pair. unfold exchange_symbol_associated_to_pair. now rewrite Hmap. }
  split; [|split; [|split]].
  - intros symbol pair. rewrite HtoPair, HtoExchange.
    unfold Bidict.getitem, Bidict.inverse_getitem. split; intros H.
    + f_equal. apply of_option_ok.
      apply (get_iff_get_inverse mapping symbol pair Hwf).
      apply (of_option_ok KeyError). congruence.
    + f_equal. apply of_option_ok.
      apply (get_iff_get_inverse mapping symbol pair Hwf).
      apply (of_option_ok KeyError). congruence.
  - intros p s Hinp Hins. rewrite HtoPair, HtoExchange.
    unfold Bidict.getitem, Bidict.inverse_getitem.
    rewrite (get_of_in mapping (p, s) (p ++ "-" ++ s) (proj1 Hwf) (Hentry p s Hinp Hins)).
    rewrite (get_inverse_of_in mapping (p, s) (p ++ "-" ++ s) (proj2 Hwf)
               (Hentry p s Hinp Hins)).
    split; reflexivity.
  - intros symbol Hnotin. rewrite HtoPair. unfold Bidict.getitem.
    rewrite get_notin_none; [reflexivity|].
    intros Hin. apply in_map_iff in Hin. destruct Hin as [[k v] [Hk He]].
    simpl in Hk. subst k. apply Hiff in He. destruct He as [[] | [He _]].
    now apply Hnotin.
  - intros pair Hnotin. rewrite HtoExchange. unfold Bidict.inverse_getitem.
    rewrite get_inverse_notin_none; [reflexivity|].
    intros Hin. apply in_map_iff in Hin. destruct Hin as [[k v] [Hv He]].
    simpl in Hv. subst v. apply Hiff in He. destruct He as [[] | [He Hname]].
    simpl in *. now apply (Hnotin k).
Qed.

(** A fixture: an exchange that lists two primary and two secondary codes. *)
Definition codes_exchange (u : string) : rest_outcome (list string) :=
  if String.eqb u (primary_codes_url "com") then Response 200 ["Xbt"; "Eth"]
  else if String.eqb u (secondary_codes_url "com") then Response 200 ["Usd"; "Aud"]
  else Response 404 [].

(** An exchange whose secondary endpoint answers with status 500. *)
Definition broken_exchange (u : string) : rest_outcome (list string) :=
  if String.eqb u (primary_codes_url "com") then Response 200 ["Xbt"; "Eth"]
  else Response 500 [].

Lemma failed_fetch_publishes_nothing_witness :
  (fetch_failed (broken_exchange (primary_codes_url "com"))
   \/ fetch_failed (broken_exchange (secondary_codes_url "com")))
  /\ exists e, _init_trading_pair_symbols broken_exchange [] "com" = ([], Raise e).
Proof.
  assert (H : fetch_failed (broken_exchange (primary_codes_url "com"))
              \/ fetch_failed (broken_exchange (secondary_codes_url "com"))).
  { right. vm_compute. discriminate. }
  split; [exact H|].
  exact (proj1 (failed_fetch_publishes_nothing broken_exchange [] "com" H)).
Defined.

Lemma symbol_lookups_are_inverse_witness :
  trading_pair_associated_to_exchange_symbol codes_exchange
    (fst (_init_trading_pair_symbols codes_exchange [] "com")) ("Eth", "Aud") "com"
  = (fst (_init_trading_pair_symbols codes_exchange [] "com"), Ok "Eth-Aud")
  /\ exchange_symbol_associated_to_pair codes_exchange
       (fst (_init_trading_pair_symbols codes_exchange [] "com")) "Eth-Aud" "com"
     = (fst (_init_trading_pair_symbols codes_exchange [] "com"), Ok ("Eth", "Aud")).
Proof.
  assert (Hp : codes_exchange (primary_codes_url "com") = Response 200 ["Xbt"; "Eth"])
    by reflexivity.
  assert (Hs : codes_exchange (secondary_codes_url "com") = Response 200 ["Usd"; "Aud"])
    by reflexivity.
  assert (Hpne : ["Xbt"; "Eth"] <> @nil string) by discriminate.
  assert (Hsne : ["Usd"; "Aud"] <> @nil string) by discriminate.
  assert (Hinit : _init_trading_pair_symbols codes_exchange [] "com"
                  = (fst (_init_trading_pair_symbols codes_exchange [] "com"), Ok tt))
    by reflexivity.
  apply (proj1 (proj2 (symbol_lookups_are_inverse codes_exchange [] _ "com" _ _
                         Hp Hs Hpne Hsne Hinit codes_exchange))).
  - simpl. tauto.
  - simpl. tauto.
Defined.

End SymbolMapFacts.

(** ** Prices, snapshots and the routing of websocket events *)

Module DataSourceFacts.

Import OrderBook.
Import DataSource.

(** *** Traces *)

Lemma guarded_emitted (r : result OrderBookMessage) (m : OrderBookMessage) :
  In m (emitted (guarded r)) -> r = Ok m.
Proof.
  destruct r as [m'|e]; simpl.
  - intros [<- | []]. reflexivity.
  - destruct e; simpl; intros [].
Qed.

Lemma then_emitted (a b : trace) (m : OrderBookMessage) :
  In m (emitted (then_ a b)) -> In m (emitted a) \/ In m (emitted b).
Proof.
  unfold then_. destruct (cancelled a); simpl; [now left|].
  intros H. now apply in_app_or in H.
Qed.

(** *** Dictionaries built by a comprehension *)

Lemma get_update_const {V : Type} (l d : Dict.t V) (k : string) (v : V) :
  (forall v', In (k, v') l -> v' = v) ->
  In k (Dict.keys l) \/ Dict.get k d = Some v ->
  Dict.get k (Dict.update d l) = Some v.
Proof.
  unfold Dict.update, Dict.keys. revert d.
  induction l as [|[k0 v0] l IH]; simpl; intros d Hconst Hin.
  - destruct Hin as [[] | H]. assumption.
  - apply IH.
    + intros v' Hv'. apply Hconst. now right.
    + destruct (String.eqb_spec k k0) as [->|Hne].
      * right. rewrite (Hconst v0) by now left. apply DictFacts.get_set_same.
      * destruct Hin as [[Heq | Hin] | Hget].
        -- congruence.
        -- now left.
        -- right. now rewrite DictFacts.get_set_other.
Qed.

Lemma gather_map {A B : Type} (f : A -> result B) (l : list A) :
  (forall a, In a l -> exists b, f a = Ok b) ->
  exists results,
    gather (map f l) = Ok results
    /\ map fst (combine l results) = l
    /\ forall a b, In (a, b) (combine l results) -> f a = Ok b.
Proof.
  induction l as [|a l IH]; simpl; intros Hall.
  - exists []. repeat split. intros a b [].
  - destruct (Hall a (or_introl eq_refl)) as [b Hb].
    destruct IH as [results [Hg [Hk Hin]]]; [intros a' Ha'; apply Hall; now right|].
    exists (b :: results). rewrite Hb, Hg. simpl. split; [reflexivity|].
    split; [now rewrite Hk|].
    intros a' b' [Heq | H]; [inversion Heq; now subst | now apply Hin].
Qed.

Section WithLibrary.

Variable strptime : string -> option Z.
Variable str_nonstring : json -> string.
Variable trade_type_sell : Q.
Variable trade_type_buy : Q.
Variable float_of_str : string -> option Q.

(** *** Last traded prices *)

(** The exchange answers the recent-trades request for [trading_pair] with
    status 200 and a body whose first trade has price [x]. *)
Definition first_trade_price (call : string -> rest_outcome json) (domain : string)
  (trading_pair : string) (x : Q) : Prop :=
  exists u body first rest price,
    Utils.public_rest_url Constants.TICKER_PRICE_CHANGE_PATH_URL
      (Some (PyStr.split "-"%char trading_pair)) domain = Ok u
    /\ call u = Response 200 body
    /\ Py.subscript body "Trades" = Ok (JArr (first :: rest))
    /\ Py.subscript first "SecondaryCurrencyTradePrice" = Ok price
    /\ py_float float_of_str price = Ok x.

Lemma _get_last_traded_price_first_trade (call : string -> rest_outcome json)
  (domain trading_pair : string) (x : Q) :
  first_trade_price call domain trading_pair x ->
  _get_last_traded_price float_of_str call trading_pair domain = Ok (Some x).
Proof.
  intros [u [body [first [rest [price [Hu [Hcall [Htrades [Hprice Hfloat]]]]]]]]].
  unfold _get_last_traded_price. rewrite Hu. simpl. rewrite Hcall. simpl.
  rewrite Htrades. simpl. rewrite Hprice. simpl. now rewrite Hfloat.
Qed.

(** C6, amended.  When no request raises, [get_last_traded_prices] returns a
    dict that maps every pair answered with status 200 to the price of the
    first trade listed in the answer. *)
Theorem last_traded_price_is_first_trade_price (call : string -> rest_outcome json)
  (trading_pairs : list string) (domain : string) :
  (forall t_pair, In t_pair trading_pairs ->
     exists r, _get_last_traded_price float_of_str call t_pair domain = Ok r) ->
  exists d,
    get_last_traded_prices float_of_str call trading_pairs domain = Ok d
    /\ forall t_pair x,
         In t_pair trading_pairs ->
         first_trade_price call domain t_pair x ->
         Dict.get t_pair d = Some (Some x).
Proof.
  intros Hall.
  destruct (gather_map (fun t => _get_last_traded_price float_of_str call t domain)
              trading_pairs Hall) as [results [Hg [Hk Hin]]].
  unfold get_last_traded_prices. rewrite Hg. simpl. eexists. split; [reflexivity|].
  intros t_pair x Hpair Hfirst.
  apply _get_last_traded_price_first_trade in Hfirst.
  apply get_update_const.
  - intros v' Hv'. apply Hin in Hv'. congruence.
  - left. unfold Dict.keys. now rewrite Hk.
Qed.

(** *** Snapshots *)

Lemma snapshot_cycle_update_id (call : string -> rest_outcome json) (clock : string -> Q)
  (domain : string) (trading_pairs : list string) (m : OrderBookMessage) :
  In m (emitted (snapshot_cycle strptime call clock domain trading_pairs)) ->
  msg_type m = SNAPSHOT /\ Dict.get "update_id" (content m) = Some (JNum (inject_Z 0)).
Proof using strptime.
  induction trading_pairs as [|p rest IH]; simpl; [intros []|].
  intros H. apply then_emitted in H. destruct H as [H | H]; [|now apply IH].
  apply guarded_emitted in H.
  destruct (get_snapshot call domain p) as [snapshot|]; simpl in H; [|discriminate H].
  unfold snapshot_of in H. destruct snapshot; try discriminate H.
  apply OrderBookFacts.snapshot_message_fields in H.
  destruct H as [Htype [Hid _]]. split; assumption.
Qed.

(** C9, amended.  Every snapshot message put on the output queue, in the
    first round of the loop and in every later one, carries update id 0. *)
Theorem every_snapshot_has_update_id_zero (call : nat -> string -> rest_outcome json)
  (clock : nat -> string -> Q) (domain : string) (trading_pairs : list string)
  (first cycles : nat) (m : OrderBookMessage) :
  In m (emitted (listen_for_order_book_snapshots strptime call clock domain
                   trading_pairs first cycles)) ->
  msg_type m = SNAPSHOT /\ Dict.get "update_id" (content m) = Some (JNum (inject_Z 0)).
Proof using strptime.
  revert first.
  induction cycles as [|n IH]; simpl; intros first; [intros []|].
  intros H. apply then_emitted in H. destruct H as [H | H].
  - now apply snapshot_cycle_update_id in H.
  - now apply IH in H.
Qed.

(** *** Routing *)

(** C3, amended.  A websocket event whose [Event] is none of [NewOrder],
    [OrderChanged], [OrderCanceled], [Heartbeat] and [Subscriptions] is not
    put on the diff queue: the router raises nothing, and on its way to the
    diff output no message is produced and nothing is logged. *)
Theorem unrouted_event_is_dropped (trading_pairs : list string) (now : Q)
  (data : Dict.t json) :
  event_among (Dict.get "Event" data)
    ["NewOrder"; "OrderChanged"; "OrderCanceled"; "Heartbeat"; "Subscriptions"] = false ->
  (route data = Ok None \/ route data = Ok (Some TradeQueue))
  /\ diff_path strptime str_nonstring trading_pairs now data = idle.
Proof.
  intros H. unfold diff_path, route, event_among in *.
  destruct (Dict.get "Event" data) as [v|]; simpl in *.
  - repeat (apply orb_false_iff in H; destruct H as [? H]).
    repeat match goal with Heq : Py.eq_str v _ = false |- _ => rewrite Heq; clear Heq end.
    simpl. destruct (Py.eq_str v Constants.TRADE_EVENT_TYPE); simpl; auto.
  - auto.
Qed.

End WithLibrary.

(** *** Fixtures *)

Definition no_float (s : string) : option Q := None.

Definition repr_stub (v : json) : string := "?".

(** A market with its best bid, its best ask and the price of its last
    trade, and the answer of the recent-trades endpoint for it: the answer
    lists trades and no order. *)
Record market : Type := {
  best_bid : Q;
  best_ask : Q;
  last_price : Q
}.

Definition midpoint (m : market) : Q := (best_bid m + best_ask m) / 2.

Definition recent_trades_of (m : market) : json :=
  JObj [("Trades",
         JArr [JObj [("TradeTimestampUtc", JStr "2021-05-01T12:00:00.1234567Z");
                     ("PrimaryCurrencyAmount", JNum (1 # 2));
                     ("SecondaryCurrencyTradePrice", JNum (last_price m))]]);
        ("CreatedTimestampUtc", JStr "2021-05-01T12:00:01.0000000Z")].

Definition quiet_market : market :=
  {| best_bid := 98; best_ask := 104; last_price := 100 |}.

Definition trades_exchange (u : string) : rest_outcome json :=
  Response 200 (recent_trades_of quiet_market).

Definition book_exchange (u : string) : rest_outcome json :=
  Response 200 (JObj (OrderBookFacts.book_payload "2021-05-01T12:00:00.1234567Z")).

Definition hourly_clock (round : nat) (trading_pair : string) : Q :=
  inject_Z (1620000000 + 3600 * Z.of_nat round).

Lemma last_traded_price_is_first_trade_price_witness :
  (forall t_pair, In t_pair ["Xbt-Usd"] ->
     exists r, _get_last_traded_price no_float trades_exchange t_pair "com" = Ok r)
  /\ exists d,
       get_last_traded_prices no_float trades_exchange ["Xbt-Usd"] "com" = Ok d
       /\ forall t_pair x,
            In t_pair ["Xbt-Usd"] ->
            first_trade_price no_float trades_exchange "com" t_pair x ->
            Dict.get t_pair d = Some (Some x).
Proof.
  assert (H : forall t_pair, In t_pair ["Xbt-Usd"] ->
                exists r, _get_last_traded_price no_float trades_exchange t_pair "com" = Ok r).
  { intros t_pair [<- | []]. eexists. reflexivity. }
  split; [exact H|].
  exact (last_traded_price_is_first_trade_price no_float trades_exchange ["Xbt-Usd"] "com" H).
Defined.

(** C6 as stated fails: with the best bid at 98, the best ask at 104 and the
    last trade at 100, the pair is mapped to 100 and not to the midpoint 101. *)
Lemma last_traded_price_is_not_midpoint :
  get_last_traded_prices no_float trades_exchange ["Xbt-Usd"] "com"
  = Ok [("Xbt-Usd", Some (last_price quiet_market))]
  /\ ~ (last_price quiet_market == midpoint quiet_market)%Q.
Proof.
  split; [reflexivity|]. vm_compute. discriminate.
Qed.

Lemma every_snapshot_has_update_id_zero_witness :
  exists m,
    In m (emitted (listen_for_order_book_snapshots OrderBookFacts.noon_strptime
                     (fun _ => book_exchange) hourly_clock "com" ["Xbt-Usd"] 0 1))
    /\ msg_type m = SNAPSHOT
    /\ Dict.get "update_id" (content m) = Some (JNum (inject_Z 0)).
Proof.
  eexists. split; [left; reflexivity|].
  apply (every_snapshot_has_update_id_zero OrderBookFacts.noon_strptime
           (fun _ => book_exchange) hourly_clock "com" ["Xbt-Usd"] 0 1).
  left. reflexivity.
Defined.

(** C9 as stated fails: over two rounds of the loop the second snapshot of
    the pair, taken an hour after the first, carries update id 0 as well. *)
Lemma later_snapshot_has_update_id_zero :
  exists m1 m2,
    emitted (listen_for_order_book_snapshots OrderBookFacts.noon_strptime
               (fun _ => book_exchange) hourly_clock "com" ["Xbt-Usd"] 0 2) = [m1; m2]
    /\ timestamp m1 = Some (inject_Z 1620000000)
    /\ timestamp m2 = Some (inject_Z 1620003600)
    /\ Dict.get "update_id" (content m1) = Some (JNum (inject_Z 0))
    /\ Dict.get "update_id" (content m2) = Some (JNum (inject_Z 0)).
Proof.
  eexists. eexists. split; [vm_compute; reflexivity|].
  repeat split; reflexivity.
Qed.

Lemma unrouted_event_is_dropped_witness :
  event_among (Dict.get "Event" (OrderBookFacts.order_event "SomethingNew"))
    ["NewOrder"; "OrderChanged"; "OrderCanceled"; "Heartbeat"; "Subscriptions"] = false
  /\ diff_path OrderBookFacts.noon_strptime repr_stub ["Xbt-Aud"] (inject_Z 1620000000)
       (OrderBookFacts.order_event "SomethingNew") = idle.
Proof.
  split; [reflexivity|].
  exact (proj2 (unrouted_event_is_dropped OrderBookFacts.noon_strptime repr_stub
                  ["Xbt-Aud"] (inject_Z 1620000000)
                  (OrderBookFacts.order_event "SomethingNew") eq_refl)).
Defined.

(** C3 as stated fails.  Handed an event named [SomethingNew], the
    normaliser binds no [update] and raises, and the diff loop logs the
    exception; and an event named [Heartbeat], which is none of the three
    order events either, makes the router raise. *)
Lemma unknown_event_raises_in_normaliser :
  diff_message_from_exchange OrderBookFacts.noon_strptime repr_stub
    (OrderBookFacts.order_event "SomethingNew") (Some (inject_Z 1620000000))
    (OrderBookFacts.pair_metadata "Xbt-Aud") = Raise UnboundLocalError
  /\ listen_for_order_book_diffs_step OrderBookFacts.noon_strptime repr_stub ["Xbt-Aud"]
       (inject_Z 1620000000) (OrderBookFacts.order_event "SomethingNew")
     = log UnboundLocalError
  /\ diff_path OrderBookFacts.noon_strptime repr_stub ["Xbt-Aud"] (inject_Z 1620000000)
       [("Event", JStr "Heartbeat")] = log TypeError.
Proof. repeat split; reflexivity. Qed.

End DataSourceFacts.

(** * Further functions of the connector *)

(** ** More of independentreserve_api_order_book_data_source.py *)

Module DataSourceMore.

Import DataSource.

(** [exchange_primary_currency_in_pair]: [trading_pair.split('-')[0]]. *)
Definition exchange_primary_currency_in_pair (trading_pair : string) : result string :=
  PyStr.index (PyStr.split "-"%char trading_pair) 0.

(** [fetch_trading_pairs]: [list(mapping.values())]. *)
Definition fetch_trading_pairs (call : string -> rest_outcome (list string))
  (st : symbol_maps) (domain : string) : symbol_maps * result (list string) :=
  let '(st', r) := trading_pair_symbol_map call st domain in
  (st', mapping <- r ;; Ok (map snd mapping)).

(** The loop of [_subscribe_channels]: [primary_symbol] is bound anew for
    each trading pair and starts unbound. *)
Fixpoint last_primary_symbol (trading_pairs : list string) (primary_symbol : option string)
  : result (option string) :=
  match trading_pairs with
  | [] => Ok primary_symbol
  | trading_pair :: rest =>
      p <- exchange_primary_currency_in_pair trading_pair ;;
      last_primary_symbol rest (Some p)
  end.

Definition subscribe_payload (channel : string) : json :=
  JObj [("Event", JStr "Subscribe"); ("Data", JArr [JStr channel])].

(** [_subscribe_channels]: the payloads handed to [ws.send], in order, when
    the connection accepts them. *)
Definition _subscribe_channels (trading_pairs : list string) : result (list json) :=
  primary_symbol <- last_primary_symbol trading_pairs None ;;
  primary_symbol <- of_option UnboundLocalError primary_symbol ;;
  let subscribe_trade_request := subscribe_payload ("ticker-" ++ primary_symbol) in
  let subscribe_orderbook_request := subscribe_payload ("orderbook-" ++ primary_symbol) in
  Ok [subscribe_trade_request; subscribe_orderbook_request].

End DataSourceMore.

(** ** independentreserve_api_user_stream_data_source.py *)

Module UserStream.

(** [len(data)]. *)
Definition py_len (v : json) : result nat :=
  match v with
  | JStr s => Ok (String.length s)
  | JArr l => Ok (List.length l)
  | JObj d => Ok (List.length d)
  | _ => Raise TypeError
  end.

(** What one websocket connection of [listen_for_user_stream] leaves behind:
    the messages put on the output queue and the exception, if any, that
    ended the connection and was logged. *)
Record session : Type := {
  forwarded : list json;
  failure : option PyExc
}.

(** The body of [async for ws_response in ws.iter_messages()] over the
    messages one connection delivers. *)
Fixpoint connection (messages : list json) : session :=
  match messages with
  | [] => {| forwarded := []; failure := None |}
  | data :: rest =>
      match py_len data with
      | Raise e => {| forwarded := []; failure := Some e |}
      | Ok n =>
          let s := connection rest in
          {| forwarded := if Nat.ltb 0 n then data :: forwarded s else forwarded s;
             failure := failure s |}
      end
  end.

(** The [while True] loop over successive connections: after each one the
    socket is closed, five seconds pass and the next connection is made. *)
Fixpoint listen_for_user_stream (connections : list (list json)) : list json * list PyExc :=
  match connections with
  | [] => ([], [])
  | messages :: rest =>
      let s := connection messages in
      let '(out, errs) := listen_for_user_stream rest in
      ((forwarded s ++ out)%list,
       (match failure s with Some e => [e] | None => [] end ++ errs)%list)
  end.

End UserStream.

(** ** Facts on strings *)

Module StrFacts.

(** [c] occurs in [s]. *)
Fixpoint has_char (c : ascii) (s : string) : bool :=
  match s with
  | EmptyString => false
  | String x s' => orb (Ascii.eqb x c) (has_char c s')
  end.

Lemma append_nil_r (s : string) : (s ++ EmptyString)%string = s.
Proof. induction s as [|c s IH]; simpl; [reflexivity | now rewrite IH]. Qed.

Lemma append_assoc (a b c : string) : ((a ++ b) ++ c)%string = (a ++ b ++ c)%string.
Proof. induction a as [|x a IH]; simpl; [reflexivity | now rewrite IH]. Qed.

Lemma has_char_app (c : ascii) (a b : string) :
  has_char c (a ++ b) = orb (has_char c a) (has_char c b).
Proof.
  induction a as [|x a IH]; simpl; [reflexivity|].
  now rewrite IH, orb_assoc.
Qed.

(** A string without the separator is one piece. *)
Lemma split_aux_plain (sep : ascii) (s cur : string) :
  has_char sep s = false -> PyStr.split_aux sep s cur = [(cur ++ s)%string].
Proof.
  revert cur. induction s as [|c s IH]; simpl; intros cur H.
  - now rewrite append_nil_r.
  - apply orb_false_iff in H. destruct H as [Hc Hs]. rewrite Hc.
    rewrite IH by assumption. now rewrite append_assoc.
Qed.

(** The first piece ends at the first separator. *)
Lemma split_aux_app (sep : ascii) (a b cur : string) :
  has_char sep a = false ->
  PyStr.split_aux sep (a ++ String sep b) cur
  = (cur ++ a)%string :: PyStr.split_aux sep b EmptyString.
Proof.
  revert cur. induction a as [|c a IH]; simpl; intros cur H.
  - rewrite Ascii.eqb_refl. now rewrite append_nil_r.
  - apply orb_false_iff in H. destruct H as [Hc Hs]. rewrite Hc.
    rewrite IH by assumption. now rewrite append_assoc.
Qed.

Lemma split_plain (sep : ascii) (s : string) :
  has_char sep s = false -> PyStr.split sep s = [s].
Proof. intros H. unfold PyStr.split. now rewrite split_aux_plain. Qed.

Lemma split_app (sep : ascii) (a b : string) :
  has_char sep a = false ->
  PyStr.split sep (a ++ String sep b) = a :: PyStr.split sep b.
Proof. intros H. unfold PyStr.split. now rewrite split_aux_app. Qed.

(** Splitting a joined pair gives the two parts back. *)
Lemma split_pair (sep : ascii) (a b : string) :
  has_char sep a = false -> has_char sep b = false ->
  PyStr.split sep (a ++ String sep b) = [a; b].
Proof. intros Ha Hb. rewrite split_app by assumption. now rewrite split_plain. Qed.

(** No piece of a split contains the separator. *)
Lemma split_aux_pieces (sep : ascii) (s cur : string) :
  has_char sep cur = false ->
  Forall (fun piece => has_char sep piece = false) (PyStr.split_aux sep s cur).
Proof.
  revert cur. induction s as [|c s IH]; simpl; intros cur H.
  - now constructor.
  - destruct (Ascii.eqb c sep) eqn:Hc.
    + constructor; [assumption|]. now apply IH.
    + apply IH. rewrite has_char_app. simpl. now rewrite H, Hc.
Qed.

Lemma split_pieces (sep : ascii) (s : string) :
  Forall (fun piece => has_char sep piece = false) (PyStr.split sep s).
Proof. now apply split_aux_pieces. Qed.

(** A split is never empty. *)
Lemma split_aux_head (sep : ascii) (s cur : string) :
  exists piece rest, PyStr.split_aux sep s cur = piece :: rest.
Proof.
  revert cur. induction s as [|c s IH]; simpl; intros cur; [eauto|].
  destruct (Ascii.eqb c sep); eauto.
Qed.

Lemma upper_char_dash (c : ascii) : Ascii.eqb (PyStr.upper_char c) "-"%char = Ascii.eqb c "-"%char.
Proof. destruct c as [[] [] [] [] [] [] [] []]; reflexivity. Qed.

Lemma lower_char_dash (c : ascii) : Ascii.eqb (PyStr.lower_char c) "-"%char = Ascii.eqb c "-"%char.
Proof. destruct c as [[] [] [] [] [] [] [] []]; reflexivity. Qed.

Lemma lower_dash (s : string) : has_char "-"%char (PyStr.lower s) = has_char "-"%char s.
Proof.
  induction s as [|c s IH]; simpl; [reflexivity|]. now rewrite lower_char_dash, IH.
Qed.

Lemma capitalize_dash (s : string) :
  has_char "-"%char (PyStr.capitalize s) = has_char "-"%char s.
Proof.
  destruct s as [|c s]; simpl; [reflexivity|]. now rewrite upper_char_dash, lower_dash.
Qed.

End StrFacts.

(** ** More on the symbol map *)

Module SymbolMapMoreFacts.

Import DataSource.
Import DataSourceMore.
Import BidictFacts.
Import SymbolMapFacts.
Import StrFacts.

Definition entry_of (k : Bidict.symbol) : Bidict.symbol * string := (k, pair_name k).

Lemma NoDup_map_pair {A B : Type} (x : A) (l : list B) :
  NoDup l -> NoDup (map (pair x) l).
Proof.
  induction 1 as [|y l Hnotin Hnd IH]; simpl; constructor; [|assumption].
  intros Hin. apply in_map_iff in Hin. destruct Hin as [y' [Heq Hin]].
  inversion Heq; subst. contradiction.
Qed.

Lemma NoDup_list_prod {A B : Type} (l : list A) (l' : list B) :
  NoDup l -> NoDup l' -> NoDup (list_prod l l').
Proof.
  intros Hl Hl'. induction Hl as [|x l Hnotin Hnd IH]; simpl; [constructor|].
  apply NoDup_app; [now apply NoDup_map_pair | assumption |].
  intros [a b] Hin Hin'. apply in_map_iff in Hin. destruct Hin as [y [Heq _]].
  inversion Heq; subst. apply in_prod_iff in Hin'. tauto.
Qed.

Lemma list_prod_nil_r {A B : Type} (l : list A) : list_prod l (@nil B) = [].
Proof. induction l as [|x l IH]; simpl; [reflexivity | assumption]. Qed.

(** Filling the bidict raises nothing but a duplicated value. *)
Lemma put_raises (k : Bidict.symbol) (v : string) (m : Bidict.t) (e : PyExc) :
  Bidict.put k v m = Raise e -> e = ValueDuplicationError.
Proof.
  unfold Bidict.put.
  destruct (Bidict.get k m); destruct (Bidict.get_inverse v m) as [k0|];
    try discriminate.
  - destruct (andb _ _); [discriminate|]. intros H. now inversion H.
  - intros H. now inversion H.
Qed.

Lemma fill_mapping_raises (pairs : list Bidict.symbol) (m : Bidict.t) (e : PyExc) :
  fill_mapping pairs m = Raise e -> e = ValueDuplicationError.
Proof.
  revert m. induction pairs as [|k pairs IH]; simpl; intros m H; [discriminate H|].
  destruct (Bidict.put k _ m) as [m1|e1] eqn:Hput; simpl in H.
  - now apply IH in H.
  - inversion H; subst. now apply put_raises in Hput.
Qed.

(** Symbols that are new and pairwise different are appended in order. *)
Lemma fill_mapping_fresh (pairs : list Bidict.symbol) (m m' : Bidict.t) :
  named m -> NoDup pairs -> (forall k, In k pairs -> ~ In k (map fst m)) ->
  fill_mapping pairs m = Ok m' -> m' = (m ++ map entry_of pairs)%list.
Proof.
  revert m. induction pairs as [|k pairs IH]; intros m Hnamed Hnd Hfresh Hfill.
  - simpl in *. inversion Hfill. now rewrite app_nil_r.
  - change (bind (Bidict.put k (pair_name k) m) (fill_mapping pairs) = Ok m') in Hfill.
    destruct (Bidict.put k (pair_name k) m) as [m1|] eqn:Hput;
      simpl in Hfill; [|discriminate Hfill].
    inversion Hnd as [|? ? Hnotin Hnd']; subst.
    destruct (put_named m m1 k Hnamed Hput) as [[-> Hin] | [-> [Hk Hv]]].
    + exfalso. apply (Hfresh k); [now left|]. now apply (in_map fst) in Hin.
    + assert (Hnamed1 : named (m ++ [(k, pair_name k)])%list).
      { intros e He. apply in_app_or in He. destruct He as [He | [<- | []]]; auto. }
      assert (Hfresh1 : forall k', In k' pairs ->
                                   ~ In k' (map fst (m ++ [(k, pair_name k)])%list)).
      { intros k' Hk' Hin. rewrite map_app in Hin. apply in_app_or in Hin.
        destruct Hin as [Hin | [<- | []]].
        - apply (Hfresh k'); [now right | assumption].
        - contradiction. }
      rewrite (IH _ Hnamed1 Hnd' Hfresh1 Hfill). simpl. now rewrite <- app_assoc.
Qed.

(** The name of a symbol determines it when the primary codes have no dash. *)
Lemma pair_name_injective (k1 k2 : Bidict.symbol) :
  has_char "-"%char (fst k1) = false -> has_char "-"%char (fst k2) = false ->
  pair_name k1 = pair_name k2 -> k1 = k2.
Proof.
  destruct k1 as [p1 s1], k2 as [p2 s2]. unfold pair_name. simpl.
  intros H1 H2 Heq.
  assert (Hsplit : PyStr.split "-"%char (p1 ++ String "-"%char s1)
                   = PyStr.split "-"%char (p2 ++ String "-"%char s2)) by now rewrite Heq.
  rewrite !split_app in Hsplit by assumption.
  inversion Hsplit; subst.
  f_equal. clear - Heq. induction p2 as [|c p2 IH]; simpl in Heq.
  - now inversion Heq.
  - inversion Heq. now apply IH.
Qed.

(** With dash-free primary codes the filling never raises. *)
Lemma fill_mapping_total (pairs : list Bidict.symbol) (m : Bidict.t) :
  named m -> Bidict.wf m ->
  (forall k, In k (map fst m) -> has_char "-"%char (fst k) = false) ->
  (forall k, In k pairs -> has_char "-"%char (fst k) = false) ->
  exists m', fill_mapping pairs m = Ok m'.
Proof.
  revert m. induction pairs as [|k pairs IH]; intros m Hnamed Hwf Hm Hpairs.
  - simpl. eauto.
  - change (exists m', bind (Bidict.put k (pair_name k) m) (fill_mapping pairs) = Ok m').
    assert (Hk : has_char "-"%char (fst k) = false) by (apply Hpairs; now left).
    assert (Hput : Bidict.put k (pair_name k) m = Ok m
                   \/ (Bidict.put k (pair_name k) m = Ok (m ++ [(k, pair_name k)])%list
                       /\ ~ In k (map fst m) /\ ~ In (pair_name k) (map snd m))).
    { unfold Bidict.put.
      destruct (Bidict.get k m) as [v|] eqn:Hget;
        destruct (Bidict.get_inverse (pair_name k) m) as [k0|] eqn:Hinv.
      - left. apply get_some_in in Hget. apply get_inverse_some_in in Hinv.
        assert (Hv : v = pair_name k) by apply (Hnamed _ Hget).
        assert (Hk0 : k0 = k).
        { apply pair_name_injective; try assumption.
          - apply Hm. now apply (in_map fst) in Hinv.
          - symmetry. apply (Hnamed _ Hinv). }
        subst. rewrite String.eqb_refl.
        now destruct (symbol_eqb_spec k k).
      - exfalso. apply get_some_in in Hget. apply get_inverse_none_notin in Hinv.
        apply Hinv. rewrite (Hnamed _ Hget : v = pair_name k) in Hget.
        now apply (in_map snd) in Hget.
      - exfalso. apply get_inverse_some_in in Hinv. apply get_none_notin in Hget.
        apply Hget.
        assert (Hk0 : k0 = k).
        { apply pair_name_injective; try assumption.
          - apply Hm. now apply (in_map fst) in Hinv.
          - symmetry. apply (Hnamed _ Hinv). }
        subst. now apply (in_map fst) in Hinv.
      - right. split; [reflexivity|]. split.
        + now apply get_none_notin.
        + now apply get_inverse_none_notin. }
    destruct Hput as [-> | [-> [Hnk Hnv]]]; simpl.
    + apply IH; try assumption. intros k' Hk'. apply Hpairs. now right.
    + apply IH.
      * intros e He. apply in_app_or in He. destruct He as [He | [<- | []]]; auto.
      * destruct Hwf as [Hkeys Hvals]. split; rewrite map_app; simpl.
        -- apply NoDup_app; [assumption | repeat constructor; simpl; tauto |].
           intros a Ha [<- | []]. contradiction.
        -- apply NoDup_app; [assumption | repeat constructor; simpl; tauto |].
           intros a Ha [<- | []]. contradiction.
      * intros k' Hk'. rewrite map_app in Hk'. apply in_app_or in Hk'.
        destruct Hk' as [Hk' | [<- | []]]; auto.
      * intros k' Hk'. apply Hpairs. now right.
Qed.

Lemma build_mapping_of_answers (call : string -> rest_outcome (list string))
  (domain : string) (primary secondary : list string) :
  call (primary_codes_url domain) = Response 200 primary ->
  call (secondary_codes_url domain) = Response 200 secondary ->
  build_mapping call domain = fill_mapping (list_prod primary secondary) [].
Proof.
  intros Hp Hs. rewrite build_mapping_spec. unfold fetch_codes. now rewrite Hp, Hs.
Qed.

(** X1. When the two code lists hold no code twice, [fetch_trading_pairs]
    lists every combination exactly once, named [primary-secondary], in the
    order of the product (primary codes outermost), and fetches nothing. *)
Theorem fetch_trading_pairs_lists_product
  (call0 : string -> rest_outcome (list string)) (st0 st : symbol_maps)
  (domain : string) (primary secondary : list string) :
  call0 (primary_codes_url domain) = Response 200 primary ->
  call0 (secondary_codes_url domain) = Response 200 secondary ->
  NoDup primary -> NoDup secondary -> primary <> [] -> secondary <> [] ->
  _init_trading_pair_symbols call0 st0 domain = (st, Ok tt) ->
  forall call : string -> rest_outcome (list string),
    fetch_trading_pairs call st domain
    = (st, Ok (map pair_name (list_prod primary secondary))).
Proof.
  intros Hp Hs Hndp Hnds Hpne Hsne Hinit call.
  destruct (init_published call0 st0 st domain primary secondary Hp Hs Hinit)
    as [mapping [Hfill Hget]].
  assert (Hmapping : mapping = map entry_of (list_prod primary secondary)).
  { apply (fill_mapping_fresh (list_prod primary secondary) [] mapping).
    - intros e [].
    - now apply NoDup_list_prod.
    - intros k _ [].
    - assumption. }
  assert (Hne : mapping <> []).
  { rewrite Hmapping. destruct primary as [|p ?]; [contradiction|].
    destruct secondary as [|s ?]; [contradiction|]. discriminate. }
  unfold fetch_trading_pairs.
  rewrite (trading_pair_symbol_map_of_ready call st domain mapping Hget Hne). simpl.
  rewrite Hmapping, map_map. reflexivity.
Qed.

(** X2. When two different combinations of codes have the same name, the
    initialisation raises the duplication error of the bidict and publishes
    nothing, although both fetches succeeded. *)
Theorem colliding_names_publish_nothing
  (call : string -> rest_outcome (list string)) (st : symbol_maps)
  (domain : string) (primary secondary : list string) (k1 k2 : Bidict.symbol) :
  call (primary_codes_url domain) = Response 200 primary ->
  call (secondary_codes_url domain) = Response 200 secondary ->
  In k1 (list_prod primary secondary) -> In k2 (list_prod primary secondary) ->
  k1 <> k2 -> pair_name k1 = pair_name k2 ->
  _init_trading_pair_symbols call st domain = (st, Raise ValueDuplicationError).
Proof.
  intros Hp Hs Hin1 Hin2 Hne Hname.
  unfold _init_trading_pair_symbols.
  rewrite (build_mapping_of_answers call domain primary secondary Hp Hs).
  destruct (fill_mapping (list_prod primary secondary) []) as [m|e] eqn:Hfill.
  - exfalso.
    assert (Hempty_named : named []) by (intros e []).
    assert (Hempty_wf : Bidict.wf []) by (split; constructor).
    destruct (fill_mapping_spec _ _ _ Hempty_named Hempty_wf Hfill) as [_ [[_ Hvals] Hiff]].
    assert (H1 : In (k1, pair_name k1) m) by (apply Hiff; right; now split).
    assert (H2 : In (k2, pair_name k1) m) by (apply Hiff; right; now split).
    apply (get_inverse_of_in m _ _ Hvals) in H1.
    apply (get_inverse_of_in m _ _ Hvals) in H2.
    congruence.
  - now rewrite (fill_mapping_raises _ _ _ Hfill).
Qed.

(** X3. When no primary code contains a dash, two successful fetches always
    populate the domain: the initialisation cannot raise, and every
    combination is stored under its name. *)
Theorem dash_free_codes_always_populate
  (call : string -> rest_outcome (list string)) (st : symbol_maps)
  (domain : string) (primary secondary : list string) :
  call (primary_codes_url domain) = Response 200 primary ->
  call (secondary_codes_url domain) = Response 200 secondary ->
  (forall p, In p primary -> has_char "-"%char p = false) ->
  exists mapping,
    _init_trading_pair_symbols call st domain = (Dict.set domain mapping st, Ok tt)
    /\ Bidict.wf mapping
    /\ forall p s, In p primary -> In s secondary ->
                   Bidict.get (p, s) mapping = Some (p ++ "-" ++ s).
Proof.
  intros Hp Hs Hdash.
  assert (Hempty_named : named []) by (intros e []).
  assert (Hempty_wf : Bidict.wf []) by (split; constructor).
  destruct (fill_mapping_total (list_prod primary secondary) [] Hempty_named Hempty_wf)
    as [mapping Hfill].
  - intros k [].
  - intros [p s] Hin. apply in_prod_iff in Hin. simpl. apply Hdash. tauto.
  - exists mapping.
    destruct (fill_mapping_spec _ _ _ Hempty_named Hempty_wf Hfill) as [_ [Hwf Hiff]].
    split; [|split].
    + unfold _init_trading_pair_symbols.
      rewrite (build_mapping_of_answers call domain primary secondary Hp Hs).
      now rewrite Hfill.
    + assumption.
    + intros p s Hinp Hins. apply get_of_in; [apply Hwf|].
      apply Hiff. right. simpl. split; [now apply in_prod | reflexivity].
Qed.

(** X4. Asking for the map of one domain, whether that initialises it or
    fails, leaves the maps of all other domains as they were. *)
Theorem other_domains_untouched
  (call : string -> rest_outcome (list string)) (st : symbol_maps)
  (domain other : string) :
  other <> domain ->
  Dict.get other (fst (trading_pair_symbol_map call st domain)) = Dict.get other st.
Proof.
  intros Hne. unfold trading_pair_symbol_map, _init_trading_pair_symbols.
  destruct (negb (trading_pair_symbol_map_ready st domain)); [|reflexivity].
  destruct (build_mapping call domain); simpl; [|reflexivity].
  now apply DictFacts.get_set_other.
Qed.

(** X5. A domain that is ready is never fetched again nor changed: whatever
    the exchange would answer, [trading_pair_symbol_map] returns the stored
    map and the same class state. *)
Theorem ready_domain_is_not_refetched (st : symbol_maps) (domain : string) :
  trading_pair_symbol_map_ready st domain = true ->
  exists mapping,
    mapping <> []
    /\ forall call : string -> rest_outcome (list string),
         trading_pair_symbol_map call st domain = (st, Ok mapping).
Proof.
  unfold trading_pair_symbol_map_ready.
  destruct (Dict.get domain st) as [mapping|] eqn:Hget; [|discriminate].
  intros Hlen.
  assert (Hne : mapping <> []) by (destruct mapping; [discriminate Hlen | discriminate]).
  exists mapping. split; [assumption|].
  intros call. now apply trading_pair_symbol_map_of_ready.
Qed.

(** X6. When one of the two endpoints answers with an empty list, an empty
    map is published for the domain and the domain is still not ready, so
    the next lookup fetches again. *)
Theorem empty_code_list_leaves_domain_unready
  (call : string -> rest_outcome (list string)) (st : symbol_maps)
  (domain : string) (primary secondary : list string) :
  call (primary_codes_url domain) = Response 200 primary ->
  call (secondary_codes_url domain) = Response 200 secondary ->
  primary = [] \/ secondary = [] ->
  _init_trading_pair_symbols call st domain = (Dict.set domain [] st, Ok tt)
  /\ trading_pair_symbol_map_ready (Dict.set domain [] st) domain = false
  /\ fst (trading_pair_symbol_map call (Dict.set domain [] st) domain)
     = fst (_init_trading_pair_symbols call (Dict.set domain [] st) domain).
Proof.
  intros Hp Hs Hempty.
  assert (Hprod : list_prod primary secondary = []).
  { destruct Hempty as [-> | ->]; [reflexivity | apply list_prod_nil_r]. }
  assert (Hready : trading_pair_symbol_map_ready (Dict.set domain [] st) domain = false).
  { unfold trading_pair_symbol_map_ready. now rewrite DictFacts.get_set_same. }
  split; [|split].
  - unfold _init_trading_pair_symbols.
    rewrite (build_mapping_of_answers call domain primary secondary Hp Hs).
    now rewrite Hprod.
  - exact Hready.
  - unfold trading_pair_symbol_map. rewrite Hready. simpl negb. cbv iota.
    now destruct (_init_trading_pair_symbols call (Dict.set domain [] st) domain).
Qed.

(** X7. The primary currency of a pair is the text before its first dash:
    for a pair named [primary-secondary] from a primary code without a dash
    it is that code. *)
Theorem primary_currency_of_pair_name (p s : string) :
  has_char "-"%char p = false ->
  exchange_primary_currency_in_pair (p ++ "-" ++ s) = Ok p.
Proof.
  intros Hp. unfold exchange_primary_currency_in_pair.
  change (p ++ "-" ++ s)%string with (p ++ String "-"%char s)%string.
  now rewrite split_app.
Qed.

Lemma exchange_primary_currency_total (trading_pair : string) :
  exists p, exchange_primary_currency_in_pair trading_pair = Ok p.
Proof.
  unfold exchange_primary_currency_in_pair, PyStr.split.
  destruct (split_aux_head "-"%char trading_pair EmptyString) as [piece [rest ->]].
  now exists piece.
Qed.

Lemma last_primary_symbol_last (rest : list string) (last p : string)
  (primary_symbol : option string) :
  exchange_primary_currency_in_pair last = Ok p ->
  last_primary_symbol (rest ++ [last]) primary_symbol = Ok (Some p).
Proof.
  intros Hlast. revert primary_symbol.
  induction rest as [|x rest IH]; simpl; intros primary_symbol.
  - now rewrite Hlast.
  - destruct (exchange_primary_currency_total x) as [q ->]. simpl. apply IH.
Qed.

(** X8. [_subscribe_channels] subscribes to the ticker and the order-book
    channel of the primary currency of the last trading pair only, whatever
    the pairs before it are; with no trading pair it raises and subscribes
    to nothing. *)
Theorem subscribe_channels_uses_last_pair (rest : list string) (last : string) :
  _subscribe_channels [] = Raise UnboundLocalError
  /\ exists p,
       exchange_primary_currency_in_pair last = Ok p
       /\ _subscribe_channels (rest ++ [last])
          = Ok [subscribe_payload ("ticker-" ++ p); subscribe_payload ("orderbook-" ++ p)].
Proof.
  split; [reflexivity|].
  destruct (exchange_primary_currency_total last) as [p Hp].
  exists p. split; [assumption|].
  unfold _subscribe_channels. now rewrite (last_primary_symbol_last rest last p None Hp).
Qed.

(** Fixtures: an exchange whose code lists give one name to two symbols. *)
Definition ambiguous_exchange (u : string) : rest_outcome (list string) :=
  if String.eqb u (primary_codes_url "com") then Response 200 ["A-B"; "A"]
  else Response 200 ["C"; "B-C"].

Definition empty_exchange (u : string) : rest_outcome (list string) :=
  if String.eqb u (primary_codes_url "com") then Response 200 ["Xbt"]
  else Response 200 [].

Lemma fetch_trading_pairs_lists_product_witness :
  fetch_trading_pairs broken_exchange
    (fst (_init_trading_pair_symbols codes_exchange [] "com")) "com"
  = (fst (_init_trading_pair_symbols codes_exchange [] "com"),
     Ok ["Xbt-Usd"; "Xbt-Aud"; "Eth-Usd"; "Eth-Aud"]).
Proof.
  assert (Hndp : NoDup ["Xbt"; "Eth"]).
  { repeat constructor; simpl; intuition discriminate. }
  assert (Hnds : NoDup ["Usd"; "Aud"]).
  { repeat constructor; simpl; intuition discriminate. }
  assert (Hpne : ["Xbt"; "Eth"] <> @nil string) by discriminate.
  assert (Hsne : ["Usd"; "Aud"] <> @nil string) by discriminate.
  exact (fetch_trading_pairs_lists_product codes_exchange [] _ "com" _ _
           eq_refl eq_refl Hndp Hnds Hpne Hsne eq_refl broken_exchange).
Defined.

Lemma colliding_names_publish_nothing_witness :
  _init_trading_pair_symbols ambiguous_exchange [] "com" = ([], Raise ValueDuplicationError).
Proof.
  assert (Hne : ("A-B", "C") <> ("A", "B-C")) by discriminate.
  apply (colliding_names_publish_nothing ambiguous_exchange [] "com"
           ["A-B"; "A"] ["C"; "B-C"] ("A-B", "C") ("A", "B-C") eq_refl eq_refl).
  - simpl. tauto.
  - simpl. tauto.
  - exact Hne.
  - reflexivity.
Defined.

Lemma dash_free_codes_always_populate_witness :
  exists mapping,
    _init_trading_pair_symbols codes_exchange [] "com" = (Dict.set "com" mapping [], Ok tt)
    /\ Bidict.wf mapping
    /\ forall p s, In p ["Xbt"; "Eth"] -> In s ["Usd"; "Aud"] ->
                   Bidict.get (p, s) mapping = Some (p ++ "-" ++ s).
Proof.
  apply (dash_free_codes_always_populate codes_exchange [] "com" ["Xbt"; "Eth"]
           ["Usd"; "Aud"] eq_refl eq_refl).
  intros p [<- | [<- | []]]; reflexivity.
Defined.

Lemma other_domains_untouched_witness :
  Dict.get "us" (fst (trading_pair_symbol_map codes_exchange [("us", [])] "com"))
  = Dict.get "us" [("us", @nil (Bidict.symbol * string))].
Proof.
  apply (other_domains_untouched codes_exchange [("us", [])] "com" "us"). discriminate.
Defined.

Lemma ready_domain_is_not_refetched_witness :
  exists mapping,
    mapping <> []
    /\ forall call : string -> rest_outcome (list string),
         trading_pair_symbol_map call
           (fst (_init_trading_pair_symbols codes_exchange [] "com")) "com"
         = (fst (_init_trading_pair_symbols codes_exchange [] "com"), Ok mapping).
Proof.
  exact (ready_domain_is_not_refetched
           (fst (_init_trading_pair_symbols codes_exchange [] "com")) "com" eq_refl).
Defined.

Lemma empty_code_list_leaves_domain_unready_witness :
  _init_trading_pair_symbols empty_exchange [] "com" = (Dict.set "com" [] [], Ok tt)
  /\ trading_pair_symbol_map_ready (Dict.set "com" [] []) "com" = false.
Proof.
  destruct (empty_code_list_leaves_domain_unready empty_exchange [] "com" ["Xbt"] []
              eq_refl eq_refl (or_intror eq_refl)) as [H1 [H2 _]].
  split; [exact H1 | exact H2].
Defined.

Lemma primary_currency_of_pair_name_witness :
  exchange_primary_currency_in_pair "Xbt-Usd" = Ok "Xbt".
Proof.
  exact (primary_currency_of_pair_name "Xbt" "Usd" eq_refl).
Defined.

End SymbolMapMoreFacts.

(** ** More on the authenticator *)

Module AuthMoreFacts.

Import Auth.
Import AuthFacts.

(** Updating with a well-formed dict: its entries win, the rest is kept. *)
Lemma get_update {V : Type} (other d : Dict.t V) (k : string) :
  Dict.wf other ->
  Dict.get k (Dict.update d other)
  = match Dict.get k other with
    | Some v => Some v
    | None => Dict.get k d
    end.
Proof.
  unfold Dict.update, Dict.wf, Dict.keys. revert d.
  induction other as [|[k0 v0] other IH]; simpl; intros d Hnd; [reflexivity|].
  inversion Hnd as [|? ? Hnotin Hnd']; subst.
  rewrite IH by assumption.
  destruct (String.eqb_spec k k0) as [->|Hne].
  - rewrite (DictFacts.get_none other k0 Hnotin). apply DictFacts.get_set_same.
  - destruct (Dict.get k other); [reflexivity|]. now apply DictFacts.get_set_other.
Qed.

Definition header_items (h : option (Dict.t string)) : Dict.t string :=
  match h with
  | Some d => d
  | None => []
  end.

Section WithPrimitives.

Variable hmac_sha256 : string -> string -> string.
Variable Val : Type.
Variable format_val : Val -> string.
Variable dumps_val : Val -> string.

(** X9. [rest_authenticate] returns the request with its method, URL and
    parameters unchanged and with the header [Content-Type: application/json]
    set; every other header of the caller keeps its value, and a
    [Content-Type] of the caller is replaced. *)
Theorem rest_authenticate_merges_headers
  (auth : IndependentreserveAuth) (request : RESTRequest Val) :
  Dict.wf (param_items (params request)) ->
  Dict.wf (header_items (headers request)) ->
  exists request' hs,
    rest_authenticate hmac_sha256 Val format_val dumps_val auth request = Ok request'
    /\ method request' = method request
    /\ url request' = url request
    /\ params request' = params request
    /\ headers request' = Some hs
    /\ Dict.get "Content-Type" hs = Some "application/json"
    /\ forall k, k <> "Content-Type" ->
                 Dict.get k hs = Dict.get k (header_items (headers request)).
Proof.
  intros Hwf Hh.
  rewrite rest_authenticate_any_method. unfold add_auth_to_data.
  rewrite (auth_data_spec hmac_sha256 Val format_val auth (url request) (params request) Hwf).
  simpl bind. eexists. eexists. split; [reflexivity|]. simpl.
  do 4 (split; [reflexivity|]).
  assert (Hbase : forall k,
             Dict.get k (match headers request with
                         | Some h => Dict.update [] h
                         | None => []
                         end)
             = Dict.get k (header_items (headers request))).
  { intros k. destruct (headers request) as [h|]; simpl; [|reflexivity].
    simpl in Hh. rewrite (get_update h [] k Hh). now destruct (Dict.get k h). }
  unfold header_for_authentication, Dict.update. simpl. split.
  - apply DictFacts.get_set_same.
  - intros k Hk. rewrite DictFacts.get_set_other by assumption. apply Hbase.
Qed.

End WithPrimitives.

(** An upper-case hexadecimal digit. *)
Definition is_upper_hex (c : ascii) : bool :=
  let n := nat_of_ascii c in
  orb (andb (Nat.leb 48 n) (Nat.leb n 57)) (andb (Nat.leb 65 n) (Nat.leb n 70)).

Fixpoint all_chars (f : ascii -> bool) (s : string) : bool :=
  match s with
  | EmptyString => true
  | String c s' => andb (f c) (all_chars f s')
  end.

Lemma upper_app (a b : string) :
  PyStr.upper (a ++ b) = (PyStr.upper a ++ PyStr.upper b)%string.
Proof. induction a as [|c a IH]; simpl; [reflexivity | now rewrite IH]. Qed.

Lemma all_chars_app (f : ascii -> bool) (a b : string) :
  all_chars f (a ++ b) = andb (all_chars f a) (all_chars f b).
Proof.
  induction a as [|c a IH]; simpl; [reflexivity|]. now rewrite IH, andb_assoc.
Qed.

Lemma length_app (a b : string) :
  String.length (a ++ b) = (String.length a + String.length b)%nat.
Proof. induction a as [|c a IH]; simpl; [reflexivity | now rewrite IH]. Qed.

Lemma upper_hex_byte (c : ascii) :
  all_chars is_upper_hex (PyStr.upper (PyStr.hex_byte c)) = true
  /\ String.length (PyStr.upper (PyStr.hex_byte c)) = 2%nat.
Proof. destruct c as [[] [] [] [] [] [] [] []]; split; reflexivity. Qed.

Lemma upper_hex_format (bytes : string) :
  all_chars is_upper_hex (PyStr.upper (PyStr.hex bytes)) = true
  /\ String.length (PyStr.upper (PyStr.hex bytes)) = (2 * String.length bytes)%nat.
Proof.
  induction bytes as [|c bytes [IH1 IH2]]; [split; reflexivity|].
  destruct (upper_hex_byte c) as [H1 H2].
  change (PyStr.hex (String c bytes)) with (PyStr.hex_byte c ++ PyStr.hex bytes)%string.
  change (String.length (String c bytes)) with (S (String.length bytes)).
  rewrite upper_app, all_chars_app, length_app, H1, H2, IH1, IH2.
  split; [reflexivity | lia].
Qed.

(** X10. Whatever the key and the message, the signature is made of
    upper-case hexadecimal digits only, two for every byte of the digest:
    64 characters for the 32 bytes of a SHA-256 digest. *)
Theorem signature_is_upper_hex (hmac_sha256 : string -> string -> string)
  (auth : IndependentreserveAuth) (message : string) :
  let digest :=
    hmac_sha256 (PyStr.encode_utf8 (secret_key auth)) (PyStr.encode_utf8 message) in
  all_chars is_upper_hex (_generate_signature hmac_sha256 auth message) = true
  /\ String.length (_generate_signature hmac_sha256 auth message)
     = (2 * String.length digest)%nat.
Proof.
  intros digest. unfold _generate_signature. apply upper_hex_format.
Qed.

(** X11. The signed message does not tell where one parameter ends and the
    next begins: a single string parameter whose value continues with a
    comma and a [k=v] text is signed exactly as the two parameters it looks
    like, so both requests carry the same signature. *)
Theorem signed_message_is_ambiguous (auth : IndependentreserveAuth) (u : string)
  (k v k' v' : string) :
  k <> k' ->
  signed_message string (fun x => x) auth u (Some [(k, v ++ "," ++ k' ++ "=" ++ v')])
  = signed_message string (fun x => x) auth u (Some [(k, v); (k', v')]).
Proof.
  intros Hne.
  rewrite !signed_message_spec.
  - unfold message_of, render. simpl.
    rewrite !StrFacts.append_assoc. simpl. reflexivity.
  - unfold Dict.wf. simpl. repeat constructor; simpl; intuition congruence.
  - unfold Dict.wf. simpl. repeat constructor; simpl; intuition congruence.
Qed.

Definition plain_request (h : option (Dict.t string)) : RESTRequest string :=
  {| method := POST;
     url := "https://api.independentreserve.com/Private/GetAccounts";
     params := None;
     data := None;
     headers := h |}.

Lemma rest_authenticate_merges_headers_witness :
  exists request' hs,
    rest_authenticate toy_hmac string (fun x => x) Json.encode_string test_auth
      (plain_request (Some [("Accept", "text/plain"); ("Content-Type", "text/xml")]))
    = Ok request'
    /\ headers request' = Some hs
    /\ Dict.get "Content-Type" hs = Some "application/json"
    /\ Dict.get "Accept" hs = Some "text/plain".
Proof.
  assert (Hwf : Dict.wf (param_items
                           (params (plain_request
                                      (Some [("Accept", "text/plain");
                                             ("Content-Type", "text/xml")]))))).
  { constructor. }
  assert (Hh : Dict.wf (header_items
                          (headers (plain_request
                                      (Some [("Accept", "text/plain");
                                             ("Content-Type", "text/xml")]))))).
  { unfold Dict.wf. simpl. repeat constructor; simpl; intuition discriminate. }
  destruct (rest_authenticate_merges_headers toy_hmac string (fun x => x)
              Json.encode_string test_auth _ Hwf Hh)
    as [request' [hs [H1 [_ [_ [_ [H2 [H3 H4]]]]]]]].
  exists request', hs. split; [exact H1|]. split; [exact H2|]. split; [exact H3|].
  rewrite (H4 "Accept"); [reflexivity | discriminate].
Defined.

Lemma signed_message_is_ambiguous_witness :
  signed_message string (fun x => x) test_auth "u" (Some [("a", "1,b=2")])
  = signed_message string (fun x => x) test_auth "u" (Some [("a", "1"); ("b", "2")]).
Proof.
  assert (Hne : "a" <> "b") by discriminate.
  exact (signed_message_is_ambiguous test_auth "u" "a" "1" "b" "2" Hne).
Defined.

End AuthMoreFacts.

(** ** More on the normaliser *)

Module OrderBookMoreFacts.

Import OrderBook.
Import OrderBookFacts.
Import StrFacts.

(** The price level read from one order of a book. *)
Definition level_of (o : json) : result json :=
  p <- Py.subscript o "Price" ;;
  v <- Py.subscript o "Volume" ;;
  Ok (JArr [p; v]).

Lemma price_volume_pairs_levels (orders levels : list json) :
  Forall2 (fun o l => level_of o = Ok l) orders levels ->
  price_volume_pairs orders = Ok levels.
Proof.
  induction 1 as [|o l orders levels Hlevel _ IH]; simpl; [reflexivity|].
  unfold level_of in Hlevel.
  destruct (Py.subscript o "Price") as [p|]; simpl in *; [|discriminate Hlevel].
  destruct (Py.subscript o "Volume") as [v|]; simpl in *; [|discriminate Hlevel].
  rewrite IH. simpl. now inversion Hlevel.
Qed.

Lemma price_volume_pairs_raise (orders : list json) (o : json) (e0 : PyExc) :
  In o orders -> level_of o = Raise e0 -> exists e, price_volume_pairs orders = Raise e.
Proof.
  induction orders as [|x orders IH]; simpl; intros Hin Hlevel; [contradiction|].
  destruct (Py.subscript x "Price") as [p|e1] eqn:Hp; simpl; [|eauto].
  destruct (Py.subscript x "Volume") as [v|e2] eqn:Hv; simpl; [|eauto].
  destruct Hin as [-> | Hin].
  - unfold level_of in Hlevel. rewrite Hp, Hv in Hlevel. discriminate Hlevel.
  - destruct (IH Hin Hlevel) as [e ->]. simpl. eauto.
Qed.

Section WithLibrary.

Variable strptime : string -> option Z.
Variable str_nonstring : json -> string.

(** X12. For a payload whose creation stamp parses and whose orders all
    have a price and a volume, the snapshot message lists one
    [price, volume] pair per buy order and per sell order, in the order the
    exchange sent them, under the trading pair of the metadata. *)
Theorem snapshot_lists_levels_in_order (msg : Dict.t json) (ts : Q)
  (metadata : option (Dict.t json)) (t : Z) (trading_pair : json)
  (buys sells bids asks : list json) :
  parse_created_timestamp strptime msg = Ok t ->
  Dict.get "BuyOrders" msg = Some (JArr buys) ->
  Dict.get "SellOrders" msg = Some (JArr sells) ->
  Forall2 (fun o l => level_of o = Ok l) buys bids ->
  Forall2 (fun o l => level_of o = Ok l) sells asks ->
  Py.opt_getitem metadata "trading_pair" = Ok trading_pair ->
  snapshot_message_from_exchange strptime msg ts metadata
  = Ok {| msg_type := SNAPSHOT;
          content := [("trading_pair", trading_pair);
                      ("update_id", JNum (inject_Z 0));
                      ("bids", JArr bids);
                      ("asks", JArr asks)];
          timestamp := Some ts |}.
Proof using Type.
  intros Hparse Hbuy Hsell Hbids Hasks Hpair.
  rewrite (snapshot_message_from_exchange_parsed strptime msg ts metadata t Hparse).
  unfold Dict.getitem. rewrite Hbuy, Hsell. simpl.
  rewrite (price_volume_pairs_levels _ _ Hbids). simpl.
  rewrite (price_volume_pairs_levels _ _ Hasks). simpl.
  now rewrite Hpair.
Qed.

(** X13. One order without a price or a volume makes the whole snapshot
    raise: no message with the remaining levels is produced. *)
Theorem malformed_order_fails_snapshot (msg : Dict.t json) (ts : Q)
  (metadata : option (Dict.t json)) (buys sells : list json) (o : json) (e0 : PyExc) :
  Dict.get "BuyOrders" msg = Some (JArr buys) ->
  Dict.get "SellOrders" msg = Some (JArr sells) ->
  In o (buys ++ sells) -> level_of o = Raise e0 ->
  exists e, snapshot_message_from_exchange strptime msg ts metadata = Raise e.
Proof using Type.
  intros Hbuy Hsell Hin Hlevel. unfold snapshot_message_from_exchange.
  destruct (parse_created_timestamp strptime msg); simpl; [|eauto].
  unfold Dict.getitem. rewrite Hbuy. simpl.
  apply in_app_or in Hin. destruct Hin as [Hin | Hin].
  - destruct (price_volume_pairs_raise buys o e0 Hin Hlevel) as [e ->]. simpl. eauto.
  - destruct (price_volume_pairs buys); simpl; [|eauto].
    rewrite Hsell. simpl.
    destruct (price_volume_pairs_raise sells o e0 Hin Hlevel) as [e ->]. simpl. eauto.
Qed.

(** X14. The metadata is not optional: when it is [None], empty or without
    the key [trading_pair], neither the snapshot nor the diff normaliser
    returns a message, whatever the payload. *)
Theorem normalisers_need_trading_pair (msg : Dict.t json) (ts : Q) (ts' : option Q)
  (metadata : option (Dict.t json)) (e0 : PyExc) :
  Py.opt_getitem metadata "trading_pair" = Raise e0 ->
  (exists e, snapshot_message_from_exchange strptime msg ts metadata = Raise e)
  /\ (exists e, diff_message_from_exchange strptime str_nonstring msg ts' metadata = Raise e).
Proof using Type.
  intros Hmd. split.
  - unfold snapshot_message_from_exchange.
    destruct (parse_created_timestamp strptime msg); simpl; [|eauto].
    destruct (Dict.getitem "BuyOrders" msg) as [b|]; simpl; [|eauto].
    destruct (Py.iterate b) as [bs|]; simpl; [|eauto].
    destruct (price_volume_pairs bs); simpl; [|eauto].
    destruct (Dict.getitem "SellOrders" msg) as [s|]; simpl; [|eauto].
    destruct (Py.iterate s) as [ss|]; simpl; [|eauto].
    destruct (price_volume_pairs ss); simpl; [|eauto].
    rewrite Hmd. simpl. eauto.
  - unfold diff_message_from_exchange.
    destruct (negb (Dict.mem "Channel" (Py.update_if msg metadata))).
    + destruct (parse_created_timestamp strptime (Py.update_if msg metadata)); simpl; [|eauto].
      rewrite Hmd. simpl. eauto.
    + unfold ws_update. rewrite Hmd. simpl. eauto.
Qed.

(** X15. A creation stamp without a dot, that is without a sub-second part,
    never parses: [strptime] rejects it, or the missing second piece raises
    [IndexError]; so the snapshot of such a payload raises. *)
Theorem stamp_without_fraction_never_parses (msg : Dict.t json) (s : string) (ts : Q)
  (metadata : option (Dict.t json)) :
  Dict.get "CreatedTimestampUtc" msg = Some (JStr s) ->
  has_char "."%char s = false ->
  (parse_created_timestamp strptime msg = Raise ValueError
   \/ parse_created_timestamp strptime msg = Raise IndexError)
  /\ exists e, snapshot_message_from_exchange strptime msg ts metadata = Raise e.
Proof using Type.
  intros Hget Hdot.
  assert (Hparse : parse_created_timestamp strptime msg = Raise ValueError
                   \/ parse_created_timestamp strptime msg = Raise IndexError).
  { unfold parse_created_timestamp, Dict.getitem. rewrite Hget. simpl.
    rewrite (split_plain "."%char s Hdot). simpl.
    destruct (strptime s); simpl; auto. }
  split; [exact Hparse|].
  unfold snapshot_message_from_exchange.
  destruct Hparse as [-> | ->]; simpl; eauto.
Qed.

End WithLibrary.

Lemma snapshot_lists_levels_in_order_witness :
  snapshot_message_from_exchange noon_strptime
    (book_payload "2021-05-01T12:00:00.1234567Z") (1620000000 # 1) (pair_metadata "Xbt-Usd")
  = Ok {| msg_type := SNAPSHOT;
          content := [("trading_pair", JStr "Xbt-Usd");
                      ("update_id", JNum (inject_Z 0));
                      ("bids", JArr [JArr [JNum (6150 # 1); JNum (1 # 2)]]);
                      ("asks", JArr [JArr [JNum (6160 # 1); JNum (3 # 4)]])];
          timestamp := Some (1620000000 # 1) |}.
Proof.
  apply (snapshot_lists_levels_in_order noon_strptime _ _ _ 1235 (JStr "Xbt-Usd")
           [JObj [("Price", JNum (6150 # 1)); ("Volume", JNum (1 # 2))]]
           [JObj [("Price", JNum (6160 # 1)); ("Volume", JNum (3 # 4))]]).
  - vm_compute. reflexivity.
  - reflexivity.
  - reflexivity.
  - repeat constructor.
  - repeat constructor.
  - reflexivity.
Defined.

(** A book one of whose buy orders has no volume. *)
Definition torn_payload : Dict.t json :=
  [("BuyOrders", JArr [JObj [("Price", JNum (6150 # 1)); ("Volume", JNum (1 # 2))];
                       JObj [("Price", JNum (6149 # 1))]]);
   ("SellOrders", JArr []);
   ("CreatedTimestampUtc", JStr "2021-05-01T12:00:00.1234567Z")].

Lemma malformed_order_fails_snapshot_witness :
  exists e,
    snapshot_message_from_exchange noon_strptime torn_payload (1620000000 # 1)
      (pair_metadata "Xbt-Usd") = Raise e.
Proof.
  apply (malformed_order_fails_snapshot noon_strptime torn_payload _ _
           [JObj [("Price", JNum (6150 # 1)); ("Volume", JNum (1 # 2))];
            JObj [("Price", JNum (6149 # 1))]]
           [] (JObj [("Price", JNum (6149 # 1))]) KeyError).
  - reflexivity.
  - reflexivity.
  - simpl. tauto.
  - reflexivity.
Defined.

Lemma normalisers_need_trading_pair_witness :
  (exists e,
      snapshot_message_from_exchange noon_strptime
        (book_payload "2021-05-01T12:00:00.1234567Z") (1620000000 # 1) None = Raise e)
  /\ (exists e,
         diff_message_from_exchange noon_strptime (fun _ => "?")
           (order_event "NewOrder") None None = Raise e).
Proof.
  destruct (normalisers_need_trading_pair noon_strptime (fun _ => "?")
              (book_payload "2021-05-01T12:00:00.1234567Z") (1620000000 # 1) None None
              TypeError eq_refl) as [H1 _].
  destruct (normalisers_need_trading_pair noon_strptime (fun _ => "?")
              (order_event "NewOrder") (1620000000 # 1) None None
              TypeError eq_refl) as [_ H2].
  split; [exact H1 | exact H2].
Defined.

Lemma stamp_without_fraction_never_parses_witness :
  parse_created_timestamp noon_strptime (book_payload "2021-05-01T12:00:00")
  = Raise IndexError.
Proof.
  destruct (stamp_without_fraction_never_parses noon_strptime
              (book_payload "2021-05-01T12:00:00") "2021-05-01T12:00:00"
              (1620000000 # 1) None eq_refl eq_refl) as [[H | H] _].
  - vm_compute in H. discriminate H.
  - exact H.
Defined.

End OrderBookMoreFacts.

(** ** Websocket events through the normaliser *)

Module WsFacts.

Import OrderBook.
Import OrderBookFacts.
Import StrFacts.

Lemma getitem_set_other {V : Type} (d : Dict.t V) (k k' : string) (v : V) :
  k <> k' -> Dict.getitem k (Dict.set k' v d) = Dict.getitem k d.
Proof. intros H. unfold Dict.getitem. now rewrite DictFacts.get_set_other. Qed.

Lemma mem_set_other {V : Type} (d : Dict.t V) (k k' : string) (v : V) :
  k <> k' -> Dict.mem k (Dict.set k' v d) = Dict.mem k d.
Proof. intros H. unfold Dict.mem. now rewrite DictFacts.get_set_other. Qed.

(** The event as the normalisers see it once the trading pair of the
    metadata has been merged into it. *)
Definition with_pair (msg : Dict.t json) (trading_pair : string) : Dict.t json :=
  Dict.set "trading_pair" (JStr trading_pair) msg.

Lemma update_if_pair (msg : Dict.t json) (trading_pair : string) :
  Py.update_if msg (pair_metadata trading_pair) = with_pair msg trading_pair.
Proof. reflexivity. Qed.

(** A websocket order event: its name, its order type and the fields both
    kinds of update read. *)
Record order_fields (msg : Dict.t json) (event order_type : string)
  (d : Dict.t json) (guid volume nonce : json) : Prop := {
  has_channel : Dict.mem "Channel" msg = true;
  has_event : Dict.get "Event" msg = Some (JStr event);
  has_data : Dict.get "Data" msg = Some (JObj d);
  has_nonce : Dict.get "Nonce" msg = Some nonce;
  has_order_type : Dict.get "OrderType" d = Some (JStr order_type);
  has_guid : Dict.get "OrderGuid" d = Some guid;
  has_volume : Dict.get "Volume" d = Some volume
}.

Section WithLibrary.

Variable strptime : string -> option Z.
Variable str_nonstring : json -> string.

(** What the websocket branch computes for an order event, case by case
    on the four tests. *)
Lemma ws_update_spec (msg : Dict.t json) (trading_pair code event order_type : string)
  (d : Dict.t json) (guid volume nonce : json) :
  order_fields msg event order_type d guid volume nonce ->
  PyStr.index (PyStr.split "-"%char trading_pair) 1 = Ok code ->
  ws_update str_nonstring (with_pair msg trading_pair) (pair_metadata trading_pair)
  = (let update := None in
     update <-
       (if andb (String.eqb event "NewOrder") (PyStr.contains "LimitBid" order_type)
        then u <- new_order_update str_nonstring (with_pair msg trading_pair)
                    (pair_metadata trading_pair) (PyStr.lower code) true ;;
             Ok (Some u)
        else Ok update) ;;
     update <-
       (if andb (String.eqb event "NewOrder") (PyStr.contains "LimitOffer" order_type)
        then u <- new_order_update str_nonstring (with_pair msg trading_pair)
                    (pair_metadata trading_pair) (PyStr.lower code) false ;;
             Ok (Some u)
        else Ok update) ;;
     update <-
       (if String.eqb event "OrderCanceled"
        then Ok (Some [("trading_pair", JStr trading_pair);
                       ("order_type", JStr order_type);
                       ("order_guid", guid);
                       ("update_id", nonce);
                       ("event", JStr event)])
        else Ok update) ;;
     if String.eqb event "OrderChanged" then
       if orb (orb (String.eqb order_type "MarketBid") (String.eqb order_type "LimitBid"))
              (orb (String.eqb order_type "MarketOffer") (String.eqb order_type "LimitOffer"))
       then Ok (Some [("trading_pair", JStr trading_pair);
                      ("order_type", JStr order_type);
                      ("order_guid", guid);
                      ("update_id", nonce);
                      ("price", volume);
                      ("event", JStr event)])
       else Ok update
     else Ok update).
Proof using Type.
  intros [Hch Hev Hdata Hnonce Hot Hguid Hvol] Hcode.
  unfold ws_update, new_order_of, event_is, order_type_among, canceled_update,
    changed_update, data_field, with_pair, pair_metadata.
  cbn [Py.opt_getitem Dict.getitem Dict.get String.eqb Ascii.eqb Bool.eqb of_option bind].
  rewrite !getitem_set_other by discriminate.
  unfold Dict.getitem. rewrite Hev, Hdata, Hnonce.
  cbn [of_option bind Py.subscript Py.split Py.eq_str Py.str_in py_str].
  unfold Dict.getitem. rewrite Hot, Hguid, Hvol, Hcode.
  cbn [of_option bind Py.subscript Py.split Py.eq_str Py.str_in py_str].
  destruct (String.eqb event "NewOrder");
    destruct (PyStr.contains "LimitBid" order_type);
    destruct (PyStr.contains "LimitOffer" order_type);
    destruct (String.eqb event "OrderCanceled");
    destruct (String.eqb event "OrderChanged");
    destruct (String.eqb order_type "MarketBid");
    destruct (String.eqb order_type "LimitBid");
    destruct (String.eqb order_type "MarketOffer");
    destruct (String.eqb order_type "LimitOffer");
    cbn [andb orb bind];
    repeat match goal with
           | |- context [bind ?r _] => destruct r; cbn [bind]
           end;
    reflexivity.
Qed.

Lemma diff_ws_spec (msg : Dict.t json) (ts : option Q) (trading_pair : string) :
  Dict.mem "Channel" msg = true ->
  diff_message_from_exchange strptime str_nonstring msg ts (pair_metadata trading_pair)
  = (update <- ws_update str_nonstring (with_pair msg trading_pair)
                 (pair_metadata trading_pair) ;;
     update <- of_option UnboundLocalError update ;;
     Ok {| msg_type := DIFF; content := update; timestamp := ts |}).
Proof using Type.
  intros Hch. unfold diff_message_from_exchange.
  rewrite update_if_pair. unfold with_pair at 1.
  rewrite mem_set_other by discriminate. now rewrite Hch.
Qed.

(** X16. An order event that no branch of the websocket normaliser serves
    yields no message: a [NewOrder] whose order type contains neither
    [LimitBid] nor [LimitOffer] (a market order), and an [OrderChanged]
    whose order type is none of the four names, both end in the use of the
    unbound local [update]. *)
Theorem unhandled_order_type_yields_no_message (msg : Dict.t json) (ts : option Q)
  (trading_pair code event order_type : string)
  (d : Dict.t json) (guid volume nonce : json) :
  order_fields msg event order_type d guid volume nonce ->
  PyStr.index (PyStr.split "-"%char trading_pair) 1 = Ok code ->
  (event = "NewOrder"
   /\ PyStr.contains "LimitBid" order_type = false
   /\ PyStr.contains "LimitOffer" order_type = false)
  \/ (event = "OrderChanged"
      /\ String.eqb order_type "MarketBid" = false
      /\ String.eqb order_type "LimitBid" = false
      /\ String.eqb order_type "MarketOffer" = false
      /\ String.eqb order_type "LimitOffer" = false) ->
  diff_message_from_exchange strptime str_nonstring msg ts (pair_metadata trading_pair)
  = Raise UnboundLocalError.
Proof using Type.
  intros Hfields Hcode Hcase.
  rewrite (diff_ws_spec msg ts trading_pair (has_channel _ _ _ _ _ _ _ Hfields)).
  rewrite (ws_update_spec msg trading_pair code event order_type d guid volume nonce
             Hfields Hcode).
  destruct Hcase as [[-> [H1 H2]] | [-> [H1 [H2 [H3 H4]]]]].
  - rewrite H1, H2. reflexivity.
  - rewrite H1, H2, H3, H4. reflexivity.
Qed.


(** X18. From the socket to the diff queue: with one tracked pair
    [primary-quote], a [NewOrder] event of a limit bid whose price map has
    an entry under the lower-cased quote code is routed to the diff queue
    and normalised into one message with that price and the volume as the
    only bid, a zero level as asks, the nonce as update id and the time of
    processing as timestamp; nothing is logged. *)
Theorem limit_bid_reaches_diff_queue (msg : Dict.t json) (now : Q)
  (primary quote order_type : string)
  (d prices : Dict.t json) (guid volume nonce price : json) :
  order_fields msg "NewOrder" order_type d guid volume nonce ->
  Dict.mem "data" msg = false ->
  PyStr.contains "LimitBid" order_type = true ->
  PyStr.contains "LimitOffer" order_type = false ->
  has_char "-"%char primary = false ->
  has_char "-"%char quote = false ->
  Dict.get "Price" d = Some (JObj prices) ->
  Dict.get (PyStr.lower quote) prices = Some price ->
  DataSource.diff_path strptime str_nonstring [primary ++ "-" ++ quote] now msg
  = DataSource.emit
      {| msg_type := DIFF;
         content := [("trading_pair", JStr (primary ++ "-" ++ quote));
                     ("order_type", JStr order_type);
                     ("order_guid", guid);
                     ("update_id", nonce);
                     ("bids", JArr [JArr [JStr (py_str str_nonstring price);
                                          JStr (py_str str_nonstring volume)]]);
                     ("asks", zero_level);
                     ("event", JStr "NewOrder")];
         timestamp := Some now |}.
Proof using Type.
  intros Hfields Hnodata Hbid Hoffer Hp Hq Hprices Hprice.
  assert (Hcode : PyStr.index (PyStr.split "-"%char (primary ++ "-" ++ quote)) 1 = Ok quote).
  { change (primary ++ "-" ++ quote)%string with (primary ++ String "-"%char quote)%string.
    now rewrite split_pair. }
  destruct Hfields as [Hch Hev Hdata Hnonce Hot Hguid Hvol] eqn:Hf.
  unfold DataSource.diff_path, DataSource.route, DataSource.event_among.
  rewrite Hev. cbn [existsb Py.eq_str String.eqb Ascii.eqb Bool.eqb orb].
  unfold DataSource.listen_for_order_book_diffs_step. rewrite Hnodata.
  cbn [PyStr.join].
  change (Some [("trading_pair", JStr (primary ++ "-" ++ quote))])
    with (pair_metadata (primary ++ "-" ++ quote)).
  rewrite (diff_ws_spec msg (Some now) _ Hch).
  rewrite (ws_update_spec msg _ quote "NewOrder" order_type d guid volume nonce
             (Build_order_fields _ _ _ _ _ _ _ Hch Hev Hdata Hnonce Hot Hguid Hvol) Hcode).
  rewrite Hbid, Hoffer.
  cbn [String.eqb Ascii.eqb Bool.eqb andb bind].
  unfold new_order_update, data_field, with_pair, pair_metadata.
  cbn [Py.opt_getitem Dict.getitem Dict.get String.eqb Ascii.eqb Bool.eqb of_option bind].
  rewrite !getitem_set_other by discriminate.
  unfold Dict.getitem. rewrite Hev, Hdata, Hnonce.
  cbn [of_option bind Py.subscript].
  unfold Dict.getitem. rewrite Hprices, Hot, Hguid, Hvol.
  cbn [of_option bind Py.subscript].
  unfold Dict.getitem. rewrite Hprice.
  reflexivity.
Qed.

End WithLibrary.

(** The price loop on its own last key. *)
Lemma last_key_app (entries : list (string * json)) (key : string) (value : json) :
  DataSource.last_key (entries ++ [(key, value)]) = Some key.
Proof. unfold DataSource.last_key. now rewrite fold_left_app. Qed.

Lemma index_piece_no_sep (sep : ascii) (s piece : string) (i : nat) :
  PyStr.index (PyStr.split sep s) i = Ok piece -> has_char sep piece = false.
Proof.
  unfold PyStr.index. intros H.
  destruct (nth_error (PyStr.split sep s) i) as [x|] eqn:Hnth; simpl in H; [|discriminate H].
  inversion H; subst. apply nth_error_In in Hnth.
  exact (proj1 (Forall_forall _ _) (split_pieces sep s) _ Hnth).
Qed.

(** X19. [listen_for_trades] names the pair after the channel and the last
    key of the price map, and publishes the value stored under that key as
    the price of the trade, whichever pairs are tracked: together with the
    side, the trade id, the nonce, the volume and the time in seconds. *)
Theorem listen_for_trades_publishes_last_price (trade_type_sell trade_type_buy : Q)
  (json_msg : Dict.t json) (channel primary key : string) (millis : Q)
  (d entries : Dict.t json) (value side guid volume nonce : json) :
  Dict.mem "data" json_msg = false ->
  Dict.get "Channel" json_msg = Some (JStr channel) ->
  PyStr.index (PyStr.split "-"%char channel) 1 = Ok primary ->
  Dict.get "Time" json_msg = Some (JNum millis) ->
  Dict.get "Nonce" json_msg = Some nonce ->
  Dict.get "Data" json_msg = Some (JObj d) ->
  Dict.get "Price" d = Some (JObj (entries ++ [(key, value)])%list) ->
  Dict.wf (entries ++ [(key, value)])%list ->
  has_char "-"%char key = false ->
  Dict.get "Side" d = Some side ->
  Dict.get "TradeGuid" d = Some guid ->
  Dict.get "Volume" d = Some volume ->
  DataSource.listen_for_trades_step trade_type_sell trade_type_buy json_msg
  = DataSource.emit
      {| msg_type := TRADE;
         content := [("trading_pair", JStr (PyStr.capitalize primary ++ "-" ++ key));
                     ("trade_type",
                      JNum (if Py.eq_str side "Sell" then trade_type_sell else trade_type_buy));
                     ("trade_id", guid);
                     ("update_id", nonce);
                     ("price", value);
                     ("amount", volume)];
         timestamp := Some (millis * (1 # 1000))%Q |}.
Proof.
  intros Hnodata Hchannel Hprimary Htime Hnonce Hdata Hprices Hwf Hkey Hside Hguid Hvolume.
  assert (Hdash : has_char "-"%char (PyStr.capitalize primary) = false).
  { rewrite capitalize_dash. exact (index_piece_no_sep _ _ _ _ Hprimary). }
  assert (Hcode : PyStr.index
                    (PyStr.split "-"%char (PyStr.capitalize primary ++ "-" ++ key)) 1
                  = Ok key).
  { change (PyStr.capitalize primary ++ "-" ++ key)%string
      with (PyStr.capitalize primary ++ String "-"%char key)%string.
    now rewrite split_pair. }
  assert (Hselect : select_price key (entries ++ [(key, value)]) None = Some value).
  { apply select_price_exact; [assumption|]. apply in_or_app. right. now left. }
  assert (Hnonempty : exists e es, (entries ++ [(key, value)])%list = e :: es).
  { destruct entries; simpl; eauto. }
  destruct Hnonempty as [e [es Hcons]].
  assert (Hmessage :
            trade_message_from_exchange trade_type_sell trade_type_buy json_msg
              (pair_metadata (PyStr.capitalize primary ++ "-" ++ key))
            = Ok {| msg_type := TRADE;
                    content := [("trading_pair",
                                 JStr (PyStr.capitalize primary ++ "-" ++ key));
                                ("trade_type",
                                 JNum (if Py.eq_str side "Sell" then trade_type_sell
                                       else trade_type_buy));
                                ("trade_id", guid);
                                ("update_id", nonce);
                                ("price", value);
                                ("amount", volume)];
                    timestamp := Some (millis * (1 # 1000))%Q |}).
  { set (pair_name := (PyStr.capitalize primary ++ "-" ++ key)%string) in *.
    assert (Htime' : Dict.get "Time" (with_pair json_msg pair_name) = Some (JNum millis)).
    { unfold with_pair. now rewrite DictFacts.get_set_other by discriminate. }
    assert (Hdata' : Dict.get "Data" (with_pair json_msg pair_name) = Some (JObj d)).
    { unfold with_pair. now rewrite DictFacts.get_set_other by discriminate. }
    assert (Hnonce' : Dict.get "Nonce" (with_pair json_msg pair_name) = Some nonce).
    { unfold with_pair. now rewrite DictFacts.get_set_other by discriminate. }
    assert (Hpair' : Dict.get "trading_pair" (with_pair json_msg pair_name)
                     = Some (JStr pair_name)).
    { unfold with_pair. apply DictFacts.get_set_same. }
    unfold trade_message_from_exchange. rewrite update_if_pair.
    generalize dependent (with_pair json_msg pair_name). intros m Htime' Hdata' Hnonce' Hpair'.
    unfold data_field, Dict.getitem. rewrite Htime'. cbn [of_option bind].
    rewrite Hpair'. cbn [of_option bind Py.split]. rewrite Hdata'.
    cbn [of_option bind Py.subscript]. unfold Dict.getitem. rewrite Hprices.
    cbn [of_option bind Py.items]. rewrite Hcons, Hcode. cbn [bind].
    rewrite <- Hcons, Hselect, Hside. cbn [of_option bind].
    rewrite Hguid. cbn [of_option bind].
    rewrite Hnonce'. cbn [of_option bind].
    rewrite Hvolume. reflexivity. }
  unfold DataSource.listen_for_trades_step. rewrite Hnodata.
  unfold data_field, Dict.getitem. rewrite Hchannel.
  cbn [of_option bind Py.split]. rewrite Hdata.
  cbn [of_option bind Py.subscript]. unfold Dict.getitem. rewrite Hprices.
  cbn [of_option bind Py.items]. rewrite Hprimary. cbn [bind].
  rewrite last_key_app. cbn [of_option bind].
  change (Some [("trading_pair", JStr (PyStr.capitalize primary ++ "-" ++ key))])
    with (pair_metadata (PyStr.capitalize primary ++ "-" ++ key)).
  now rewrite Hmessage.
Qed.

(** Fixtures: a market order, and the fields of the two order events. *)
Definition market_order_event : Dict.t json :=
  [("Channel", JStr "orderbook-xbt");
   ("Nonce", JNum (9 # 1));
   ("Data", JObj [("OrderType", JStr "MarketBid");
                  ("OrderGuid", JStr "5f3c9c1c");
                  ("Volume", JNum (1 # 4))]);
   ("Time", JNum (1620000000000 # 1));
   ("Event", JStr "NewOrder")].

Lemma market_order_fields :
  order_fields market_order_event "NewOrder" "MarketBid"
    [("OrderType", JStr "MarketBid"); ("OrderGuid", JStr "5f3c9c1c"); ("Volume", JNum (1 # 4))]
    (JStr "5f3c9c1c") (JNum (1 # 4)) (JNum (9 # 1)).
Proof. constructor; reflexivity. Defined.

Lemma order_event_fields (event : string) :
  order_fields (order_event event) event "LimitBid"
    [("OrderType", JStr "LimitBid"); ("OrderGuid", JStr "dbe7b832");
     ("Price", two_prices); ("Volume", JNum (1 # 4))]
    (JStr "dbe7b832") (JNum (1 # 4)) (JNum (8 # 1)).
Proof. constructor; reflexivity. Defined.

Lemma unhandled_order_type_yields_no_message_witness :
  diff_message_from_exchange noon_strptime (fun _ => "?") market_order_event None
    (pair_metadata "Xbt-Aud") = Raise UnboundLocalError.
Proof.
  apply (unhandled_order_type_yields_no_message noon_strptime (fun _ => "?")
           market_order_event None "Xbt-Aud" "Aud" "NewOrder" "MarketBid" _ _ _ _
           market_order_fields eq_refl).
  left. repeat split; reflexivity.
Defined.


Lemma limit_bid_reaches_diff_queue_witness :
  DataSource.diff_path noon_strptime (fun _ => "?") ["Xbt-Aud"] (1620000000 # 1)
    (order_event "NewOrder")
  = DataSource.emit
      {| msg_type := DIFF;
         content := [("trading_pair", JStr "Xbt-Aud");
                     ("order_type", JStr "LimitBid");
                     ("order_guid", JStr "dbe7b832");
                     ("update_id", JNum (8 # 1));
                     ("bids", JArr [JArr [JStr "140"; JStr "?"]]);
                     ("asks", zero_level);
                     ("event", JStr "NewOrder")];
         timestamp := Some (1620000000 # 1) |}.
Proof.
  exact (limit_bid_reaches_diff_queue noon_strptime (fun _ => "?")
           (order_event "NewOrder") (1620000000 # 1) "Xbt" "Aud" "LimitBid"
           _ [("usd", JStr "100"); ("aud", JStr "140")] _ _ _ (JStr "140")
           (order_event_fields "NewOrder") eq_refl eq_refl eq_refl eq_refl eq_refl
           eq_refl eq_refl).
Defined.

Lemma listen_for_trades_publishes_last_price_witness :
  DataSource.listen_for_trades_step 2 1 trade_event
  = DataSource.emit
      {| msg_type := TRADE;
         content := [("trading_pair", JStr "Xbt-aud");
                     ("trade_type", JNum 1);
                     ("trade_id", JStr "c5bb0ff4");
                     ("update_id", JNum (7 # 1));
                     ("price", JStr "140");
                     ("amount", JNum (1 # 2))];
         timestamp := Some ((1620000000000 # 1) * (1 # 1000))%Q |}.
Proof.
  assert (Hwf : Dict.wf ([("usd", JStr "100")] ++ [("aud", JStr "140")])%list).
  { unfold Dict.wf. simpl. repeat constructor; simpl; intuition discriminate. }
  exact (listen_for_trades_publishes_last_price 2 1 trade_event "ticker-xbt" "xbt" "aud"
           (1620000000000 # 1)
           [("TradeGuid", JStr "c5bb0ff4"); ("Pair", JStr "xbt-aud");
            ("Price", two_prices); ("Volume", JNum (1 # 2)); ("Side", JStr "Buy")]
           [("usd", JStr "100")] (JStr "140") (JStr "Buy") (JStr "c5bb0ff4")
           (JNum (1 # 2)) (JNum (7 # 1))
           eq_refl eq_refl eq_refl eq_refl eq_refl eq_refl eq_refl Hwf eq_refl
           eq_refl eq_refl eq_refl).
Defined.

End WsFacts.

(** ** Batches, cycles and streams *)

Module LoopFacts.

Import OrderBook.
Import DataSource.
Import StrFacts.

(** *** Dictionaries built by assignment *)

Lemma keys_set {V : Type} (d : Dict.t V) (k0 : string) (v : V) (k : string) :
  In k (Dict.keys (Dict.set k0 v d)) <-> k = k0 \/ In k (Dict.keys d).
Proof.
  unfold Dict.keys. induction d as [|[k' v'] d IH]; simpl.
  - split; [intros [H | []]; auto | intros [H | []]; auto].
  - destruct (String.eqb_spec k0 k') as [->|Hne]; simpl.
    + split; [intros [H | H]; auto | intros [H | [H | H]]; auto].
    + rewrite IH. split; [intros [H | [H | H]]; auto | intros [H | [H | H]]; auto].
Qed.

Lemma wf_set {V : Type} (d : Dict.t V) (k0 : string) (v : V) :
  Dict.wf d -> Dict.wf (Dict.set k0 v d).
Proof.
  unfold Dict.wf. induction d as [|[k' v'] d IH]; simpl; intros Hnd.
  - repeat constructor. intros [].
  - inversion Hnd as [|? ? Hnotin Hnd']; subst.
    destruct (String.eqb_spec k0 k') as [->|Hne]; simpl.
    + now constructor.
    + constructor; [|now apply IH].
      intros Hin. apply (keys_set d k0 v k') in Hin. destruct Hin as [H | H]; auto.
Qed.

Lemma update_keys {V : Type} (l d : Dict.t V) :
  Dict.wf d ->
  Dict.wf (Dict.update d l)
  /\ forall k, In k (Dict.keys (Dict.update d l)) <-> In k (Dict.keys d) \/ In k (Dict.keys l).
Proof.
  unfold Dict.update. revert d.
  induction l as [|[k0 v0] l IH]; simpl; intros d Hwf.
  - split; [assumption|]. intros k. tauto.
  - destruct (IH (Dict.set k0 v0 d) (wf_set d k0 v0 Hwf)) as [Hwf' Hkeys].
    split; [assumption|]. intros k. rewrite Hkeys, keys_set. unfold Dict.keys. simpl.
    split; [intros [[H | H] | H]; auto | intros [H | [H | H]]; auto].
Qed.

Lemma gather_raise {A : Type} (tasks : list (result A)) (e : PyExc) :
  In (Raise e) tasks -> exists e', gather tasks = Raise e'.
Proof.
  induction tasks as [|t tasks IH]; simpl; intros Hin; [contradiction|].
  destruct t as [a|e0]; simpl; [|eauto].
  destruct Hin as [Heq | Hin]; [discriminate Heq|].
  destruct (IH Hin) as [e' ->]. simpl. eauto.
Qed.

Section WithLibrary.

Variable strptime : string -> option Z.
Variable str_nonstring : json -> string.
Variable float_of_str : string -> option Q.

(** *** Last traded prices *)

(** X20. When no request of the batch raises, a pair whose request is
    answered with a status other than 200 is present in the result and
    mapped to [None]. *)
Theorem unanswered_pair_maps_to_none (call : string -> rest_outcome json)
  (trading_pairs : list string) (domain : string) :
  (forall t_pair, In t_pair trading_pairs ->
     exists r, _get_last_traded_price float_of_str call t_pair domain = Ok r) ->
  exists d,
    get_last_traded_prices float_of_str call trading_pairs domain = Ok d
    /\ forall t_pair u status body,
         In t_pair trading_pairs ->
         Utils.public_rest_url Constants.TICKER_PRICE_CHANGE_PATH_URL
           (Some (PyStr.split "-"%char t_pair)) domain = Ok u ->
         call u = Response status body -> status <> 200 ->
         Dict.get t_pair d = Some None.
Proof using Type.
  intros Hall.
  destruct (DataSourceFacts.gather_map
              (fun t => _get_last_traded_price float_of_str call t domain)
              trading_pairs Hall) as [results [Hg [Hk Hin]]].
  unfold get_last_traded_prices. rewrite Hg. cbn [bind]. eexists. split; [reflexivity|].
  intros t_pair u status body Hpair Hu Hcall Hstatus.
  assert (Htask : _get_last_traded_price float_of_str call t_pair domain = Ok None).
  { unfold _get_last_traded_price. rewrite Hu. cbn [bind]. rewrite Hcall.
    destruct (Z.eqb_spec status 200); [contradiction | reflexivity]. }
  apply DataSourceFacts.get_update_const.
  - intros v' Hv'. apply Hin in Hv'. congruence.
  - left. unfold Dict.keys. now rewrite Hk.
Qed.

(** X21. One request that raises fails the whole batch: no dict is
    returned, not even for the pairs that were answered. *)
Theorem one_failure_fails_the_batch (call : string -> rest_outcome json)
  (trading_pairs : list string) (domain : string) (t_pair : string) (e : PyExc) :
  In t_pair trading_pairs ->
  _get_last_traded_price float_of_str call t_pair domain = Raise e ->
  exists e', get_last_traded_prices float_of_str call trading_pairs domain = Raise e'.
Proof using Type.
  intros Hin Htask. unfold get_last_traded_prices.
  destruct (gather_raise
              (map (fun t => _get_last_traded_price float_of_str call t domain) trading_pairs)
              e) as [e' ->].
  - rewrite <- Htask.
    apply (in_map (fun t => _get_last_traded_price float_of_str call t domain)).
    assumption.
  - simpl. eauto.
Qed.

(** X22. The dict returned for a batch has exactly the requested pairs as
    keys, each once, however often a pair was requested. *)
Theorem last_traded_prices_keys (call : string -> rest_outcome json)
  (trading_pairs : list string) (domain : string) (d : Dict.t (option Q)) :
  get_last_traded_prices float_of_str call trading_pairs domain = Ok d ->
  Dict.wf d /\ forall k, In k (Dict.keys d) <-> In k trading_pairs.
Proof using Type.
  unfold get_last_traded_prices.
  destruct (gather _) as [results|] eqn:Hg; simpl; [|discriminate].
  intros H. inversion H; subst. clear H.
  assert (Hlen : map fst (combine trading_pairs results) = trading_pairs).
  { revert results Hg. induction trading_pairs as [|p ps IH]; simpl; intros results Hg.
    - reflexivity.
    - destruct (_get_last_traded_price float_of_str call p domain); simpl in Hg;
        [|discriminate Hg].
      destruct (gather _) as [rs|] eqn:Hrs; simpl in Hg; [|discriminate Hg].
      inversion Hg; subst. simpl. now rewrite (IH rs). }
  destruct (update_keys (combine trading_pairs results) (@nil (string * option Q)))
    as [Hwf Hkeys]; [constructor|].
  split; [assumption|]. intros k. rewrite Hkeys. unfold Dict.keys at 2. rewrite Hlen.
  simpl. split; [intros [[] | H]; exact H | intros H; now right].
Qed.

(** *** The snapshot cycle *)

(** What the body of the snapshot loop attempts for one pair. *)
Definition attempt (call : string -> rest_outcome json) (clock : string -> Q)
  (domain : string) (trading_pair : string) : result OrderBookMessage :=
  snapshot <- get_snapshot call domain trading_pair ;;
  snapshot_of strptime snapshot (clock trading_pair)
    (Some [("trading_pair", JStr trading_pair)]).

Definition messages_of (r : result OrderBookMessage) : list OrderBookMessage :=
  match r with
  | Ok m => [m]
  | Raise _ => []
  end.

Definition errors_of (r : result OrderBookMessage) : list PyExc :=
  match r with
  | Ok _ => []
  | Raise e => [e]
  end.

(** X23. Unless a request is cancelled, one pass over the trading pairs
    runs to its end: the snapshots of the pairs that succeed are put on the
    queue in the order of the pairs, and each pair that fails adds one
    logged error without affecting the others. *)
Theorem snapshot_cycle_isolates_failures (call : string -> rest_outcome json)
  (clock : string -> Q) (domain : string) (trading_pairs : list string) :
  (forall p, In p trading_pairs -> attempt call clock domain p <> Raise CancelledError) ->
  cancelled (snapshot_cycle strptime call clock domain trading_pairs) = false
  /\ emitted (snapshot_cycle strptime call clock domain trading_pairs)
     = flat_map (fun p => messages_of (attempt call clock domain p)) trading_pairs
  /\ logged (snapshot_cycle strptime call clock domain trading_pairs)
     = flat_map (fun p => errors_of (attempt call clock domain p)) trading_pairs.
Proof using Type.
  induction trading_pairs as [|p ps IH]; intros Hall.
  - repeat split; reflexivity.
  - destruct IH as [Hc [He Hl]]; [intros q Hq; apply Hall; now right|].
    assert (Hp := Hall p (or_introl eq_refl)).
    change (snapshot_cycle strptime call clock domain (p :: ps))
      with (then_ (guarded (attempt call clock domain p))
              (snapshot_cycle strptime call clock domain ps)).
    simpl flat_map.
    destruct (attempt call clock domain p) as [m|e].
    + unfold then_. simpl. rewrite Hc, He, Hl. repeat split; reflexivity.
    + destruct e; try (exfalso; now apply Hp);
        unfold then_; simpl; rewrite Hc, He, Hl; repeat split; reflexivity.
Qed.

(** *** The router *)

(** X24. An event named [Heartbeat] or [Subscriptions] is not skipped: the
    chained test of the router looks the list of names up as a key of the
    message and raises [TypeError] before any queue is touched, which the
    handler of the receive loop logs before it reconnects. *)
Theorem heartbeat_raises_in_router (trading_pairs : list string) (now : Q)
  (data : Dict.t json) :
  event_among (Dict.get "Event" data) ["Heartbeat"; "Subscriptions"] = true ->
  route data = Raise TypeError
  /\ diff_path strptime str_nonstring trading_pairs now data = log TypeError.
Proof using Type.
  intros H. unfold diff_path, route. rewrite H. split; reflexivity.
Qed.

(** *** Request URLs *)

Lemma url_of_pair (before between after : string) (domain p s : string) :
  has_char "-"%char p = false -> has_char "-"%char s = false ->
  Utils.public_rest_url (Constants.Template2 before between after)
    (Some (PyStr.split "-"%char (p ++ "-" ++ s))) domain
  = Ok ("https://api.independentreserve." ++ domain ++ "/Public"
          ++ before ++ p ++ between ++ s ++ after).
Proof using Type.
  intros Hp Hs.
  change (p ++ "-" ++ s)%string with (p ++ String "-"%char s)%string.
  rewrite split_pair by assumption.
  unfold Utils.public_rest_url, Constants.REST_URL, Constants.PUBLIC_API_VERSION,
    Constants.format2.
  cbn [PyStr.index nth_error of_option bind].
  now rewrite !append_assoc.
Qed.

(** X25. For a pair named [primary-secondary] from codes without a dash,
    [get_snapshot] asks the order-book endpoint of the domain for exactly
    these two codes; it returns the body of a 200 answer and raises
    [IOError] on any other status. *)
Theorem get_snapshot_requests_pair_codes (call : string -> rest_outcome json)
  (domain p s : string) :
  has_char "-"%char p = false -> has_char "-"%char s = false ->
  get_snapshot call domain (p ++ "-" ++ s)
  = match call ("https://api.independentreserve." ++ domain
                  ++ "/Public/GetOrderBook?primaryCurrencyCode=" ++ p
                  ++ "&secondaryCurrencyCode=" ++ s) with
    | CallRaises e => Raise e
    | Response status body => if status =? 200 then Ok body else Raise IOError
    end.
Proof using Type.
  intros Hp Hs. unfold get_snapshot, Constants.ORDER_BOOK_PATH_URL.
  rewrite (url_of_pair _ _ _ domain p s Hp Hs). cbn [bind].
  rewrite (append_nil_r s).
  change ("/Public" ++ "/GetOrderBook?primaryCurrencyCode=" ++ p
            ++ "&secondaryCurrencyCode=" ++ s)%string
    with ("/Public/GetOrderBook?primaryCurrencyCode=" ++ p
            ++ "&secondaryCurrencyCode=" ++ s)%string.
  destruct (call _) as [e|status body]; [reflexivity|].
  now destruct (status =? 200).
Qed.

(** X26. A trading pair without a dash has no secondary code: both
    [get_snapshot] and [_get_last_traded_price] raise [IndexError] while
    they build the URL, before any request is made. *)
Theorem pair_without_dash_raises_before_request (domain trading_pair : string) :
  has_char "-"%char trading_pair = false ->
  (forall call, get_snapshot call domain trading_pair = Raise IndexError)
  /\ (forall call,
         _get_last_traded_price float_of_str call trading_pair domain = Raise IndexError).
Proof using Type.
  intros Hdash. split; intros call.
  - unfold get_snapshot. rewrite (split_plain _ _ Hdash). reflexivity.
  - unfold _get_last_traded_price. rewrite (split_plain _ _ Hdash). reflexivity.
Qed.

End WithLibrary.

(** *** Fixtures *)

Definition down_exchange (u : string) : rest_outcome json := Response 503 JNull.

Definition no_trades_exchange (u : string) : rest_outcome json :=
  Response 200 (JObj [("Trades", JArr [])]).

(** An exchange that serves the book of one pair only. *)
Definition one_book_exchange (u : string) : rest_outcome json :=
  if String.eqb u
       "https://api.independentreserve.com/Public/GetOrderBook?primaryCurrencyCode=Xbt&secondaryCurrencyCode=Usd"
  then DataSourceFacts.book_exchange u
  else Response 500 JNull.

Lemma unanswered_pair_maps_to_none_witness :
  exists d,
    get_last_traded_prices DataSourceFacts.no_float down_exchange ["Xbt-Usd"] "com" = Ok d
    /\ Dict.get "Xbt-Usd" d = Some None.
Proof.
  assert (Hall : forall t_pair, In t_pair ["Xbt-Usd"] ->
                   exists r, _get_last_traded_price DataSourceFacts.no_float down_exchange
                               t_pair "com" = Ok r).
  { intros t_pair [<- | []]. eexists. reflexivity. }
  destruct (unanswered_pair_maps_to_none DataSourceFacts.no_float down_exchange
              ["Xbt-Usd"] "com" Hall) as [d [Hd Hnone]].
  exists d. split; [exact Hd|].
  apply (Hnone "Xbt-Usd" _ 503 JNull (or_introl eq_refl) eq_refl eq_refl).
  discriminate.
Defined.

Lemma one_failure_fails_the_batch_witness :
  exists e',
    get_last_traded_prices DataSourceFacts.no_float no_trades_exchange
      ["Eth-Usd"; "Xbt-Usd"] "com" = Raise e'.
Proof.
  apply (one_failure_fails_the_batch DataSourceFacts.no_float no_trades_exchange
           ["Eth-Usd"; "Xbt-Usd"] "com" "Xbt-Usd" IndexError).
  - simpl. tauto.
  - reflexivity.
Defined.

Lemma last_traded_prices_keys_witness :
  exists d,
    get_last_traded_prices DataSourceFacts.no_float DataSourceFacts.trades_exchange
      ["Xbt-Usd"; "Eth-Usd"; "Xbt-Usd"] "com" = Ok d
    /\ Dict.wf d
    /\ forall k, In k (Dict.keys d) <-> In k ["Xbt-Usd"; "Eth-Usd"; "Xbt-Usd"].
Proof.
  eexists. split; [reflexivity|].
  apply (last_traded_prices_keys DataSourceFacts.no_float DataSourceFacts.trades_exchange
           ["Xbt-Usd"; "Eth-Usd"; "Xbt-Usd"] "com").
  reflexivity.
Defined.

Lemma snapshot_cycle_isolates_failures_witness :
  cancelled (snapshot_cycle OrderBookFacts.noon_strptime one_book_exchange
               (DataSourceFacts.hourly_clock 0) "com" ["Eth-Usd"; "Xbt-Usd"]) = false
  /\ List.length (emitted (snapshot_cycle OrderBookFacts.noon_strptime one_book_exchange
                             (DataSourceFacts.hourly_clock 0) "com" ["Eth-Usd"; "Xbt-Usd"]))
     = 1%nat
  /\ logged (snapshot_cycle OrderBookFacts.noon_strptime one_book_exchange
               (DataSourceFacts.hourly_clock 0) "com" ["Eth-Usd"; "Xbt-Usd"]) = [IOError].
Proof.
  assert (Hall : forall p, In p ["Eth-Usd"; "Xbt-Usd"] ->
                   attempt OrderBookFacts.noon_strptime one_book_exchange
                     (DataSourceFacts.hourly_clock 0) "com" p <> Raise CancelledError).
  { intros p [<- | [<- | []]]; vm_compute; discriminate. }
  destruct (snapshot_cycle_isolates_failures OrderBookFacts.noon_strptime one_book_exchange
              (DataSourceFacts.hourly_clock 0) "com" ["Eth-Usd"; "Xbt-Usd"] Hall)
    as [Hc [He Hl]].
  split; [exact Hc|]. split.
  - rewrite He. reflexivity.
  - rewrite Hl. reflexivity.
Defined.

Lemma heartbeat_raises_in_router_witness :
  route [("Event", JStr "Heartbeat")] = Raise TypeError.
Proof.
  exact (proj1 (heartbeat_raises_in_router OrderBookFacts.noon_strptime (fun _ => "?")
                  ["Xbt-Usd"] (1620000000 # 1) [("Event", JStr "Heartbeat")] eq_refl)).
Defined.

Lemma get_snapshot_requests_pair_codes_witness :
  get_snapshot one_book_exchange "com" "Xbt-Usd"
  = match one_book_exchange
            "https://api.independentreserve.com/Public/GetOrderBook?primaryCurrencyCode=Xbt&secondaryCurrencyCode=Usd"
    with
    | CallRaises e => Raise e
    | Response status body => if status =? 200 then Ok body else Raise IOError
    end.
Proof.
  exact (get_snapshot_requests_pair_codes one_book_exchange "com" "Xbt" "Usd"
           eq_refl eq_refl).
Defined.

Lemma pair_without_dash_raises_before_request_witness :
  get_snapshot one_book_exchange "com" "XbtUsd" = Raise IndexError.
Proof.
  exact (proj1 (pair_without_dash_raises_before_request DataSourceFacts.no_float
                  "com" "XbtUsd" eq_refl) one_book_exchange).
Defined.

End LoopFacts.

(** ** The user stream *)

Module UserStreamFacts.

Import UserStream.

(** A message with a length, and one that is forwarded. *)
Definition sized (m : json) : Prop := exists n, py_len m = Ok n.

Definition nonempty (m : json) : bool :=
  match py_len m with
  | Ok n => Nat.ltb 0 n
  | Raise _ => false
  end.

Lemma connection_sized (messages : list json) :
  Forall sized messages ->
  connection messages = {| forwarded := filter nonempty messages; failure := None |}.
Proof.
  induction 1 as [|m messages [n Hn] _ IH]; simpl; [reflexivity|].
  unfold nonempty. rewrite Hn, IH. simpl. now destruct (Nat.ltb 0 n).
Qed.

(** X27. When every message received has a length, the user stream puts
    the non-empty messages on the output queue unchanged, in the order
    received and across reconnections, drops the empty ones and logs
    nothing. *)
Theorem user_stream_forwards_in_order (connections : list (list json)) :
  Forall sized (concat connections) ->
  listen_for_user_stream connections = (filter nonempty (concat connections), []).
Proof.
  induction connections as [|messages rest IH]; simpl; intros Hall; [reflexivity|].
  apply Forall_app in Hall. destruct Hall as [Hm Hrest].
  rewrite (IH Hrest), (connection_sized messages Hm). simpl.
  now rewrite filter_app.
Qed.

(** X28. A message without a length (a null, a number, a boolean) ends the
    connection with [TypeError]: what was received before it has been
    forwarded, and the messages after it on that connection are not. *)
Theorem unsized_message_ends_connection (before after : list json) (bad : json)
  (e : PyExc) :
  Forall sized before -> py_len bad = Raise e ->
  connection (before ++ bad :: after)
  = {| forwarded := filter nonempty before; failure := Some e |}.
Proof.
  intros Hbefore Hbad.
  induction Hbefore as [|m before [n Hn] _ IH]; simpl.
  - now rewrite Hbad.
  - unfold nonempty. rewrite Hn, IH. simpl. now destruct (Nat.ltb 0 n).
Qed.

Definition balance_update : json :=
  JObj [("e", JStr "balanceUpdate"); ("a", JStr "BTC"); ("d", JStr "100.00000000")].

Lemma user_stream_forwards_in_order_witness :
  listen_for_user_stream [[balance_update; JObj []]; [JStr EmptyString; balance_update]]
  = ([balance_update; balance_update], []).
Proof.
  apply (user_stream_forwards_in_order
           [[balance_update; JObj []]; [JStr EmptyString; balance_update]]).
  simpl. repeat constructor; eexists; reflexivity.
Defined.

Lemma unsized_message_ends_connection_witness :
  connection ([balance_update] ++ JNull :: [balance_update])
  = {| forwarded := [balance_update]; failure := Some TypeError |}.
Proof.
  apply (unsized_message_ends_connection [balance_update] [balance_update] JNull TypeError).
  - repeat constructor. eexists. reflexivity.
  - reflexivity.
Defined.

End UserStreamFacts.
